(** * WesternMeteorPyLib, [wmpl/Formats]: CAMS ingestion and the solver adapters

    A shallow embedding of [wmpl/Formats/CAMS.py] and of the solver selection
    of [wmpl/Formats/Pickle.py], and the properties of the ingestion,
    normalisation and adapter code established on it.

    Conventions of the embedding:
    - a Python call either returns or raises: [result A] is [Ok a] or
      [Raise e], and statements are sequenced with the bind of that monad;
    - a text file is the list of lines its iterator yields (each line with
      its terminator, as Python hands it to the loop body);
    - a Python [float] is an IEEE binary64 number, Rocq's primitive [float];
      the arithmetic of the observation container and of the normaliser is
      written once over the interface [PyFloat], instantiated at binary64
      (what the interpreter runs) and at the real numbers (exact arithmetic,
      the reading of statements made "up to floating tolerance");
    - [MeteorObservation] objects live in a store and are named by their
      index in it, so that one object reached twice is one object;
    - [print] appends a message to the console log carried by the state;
    - text is ASCII (code points below 256), the integer and float literals
      are those of Python 3. *)

From Stdlib Require Import ZArith String Ascii List Floats Reals Lra Lia.
From stdpp Require Import base option list gmap strings.

Set Warnings "-inexact-float".

(** ** Exceptions and results *)

(** The exceptions the modelled code can raise. [InvalidRef] is not a Python
    exception: it is the model's answer to a reference that names no object
    of the store, which no well-formed input contains. *)
Inductive exn : Set :=
  | IndexError
  | ValueError
  | ZeroDivisionError
  | TypeError
  | AttributeError
  | StopIteration
  | UnboundLocalError
  | InvalidRef.

Inductive result (A : Type) : Type :=
  | Ok (a : A)
  | Raise (e : exn).
Arguments Ok {A} a.
Arguments Raise {A} e.

Global Instance result_ret : MRet result := @Ok.
Global Instance result_bind : MBind result :=
  λ A B f m, match m with Ok a => f a | Raise e => Raise e end.

Global Instance result_fmap : FMap result :=
  λ A B f m, match m with Ok a => Ok (f a) | Raise e => Raise e end.

Definition is_ok {A} (r : result A) : bool :=
  match r with Ok _ => true | Raise _ => false end.

(** [l[i]] on a Python list. *)
Definition index {A} (l : list A) (i : nat) : result A :=
  match l !! i with Some x => Ok x | None => Raise IndexError end.

(** ** Strings *)

Module Str.

(** Characters Python's [str.split()] and [str.strip()] treat as white space. *)
Definition is_space (c : ascii) : bool :=
  let n := nat_of_ascii c in
  ((9 <=? n) && (n <=? 13)) || ((28 <=? n) && (n <=? 32))
  || (n =? 133) || (n =? 160).

Definition flush (tok : string) : list string :=
  match tok with EmptyString => [] | _ => [String.rev tok] end.

(** [s.split()]: the maximal runs of non-space characters. [tok] holds the
    characters of the run being read, last one first. *)
Fixpoint split_go (tok s : string) : list string :=
  match s with
  | EmptyString => flush tok
  | String c s' =>
      if is_space c then flush tok ++ split_go EmptyString s'
      else split_go (String c tok) s'
  end.
Definition split (s : string) : list string := split_go EmptyString s.

(** [s.split(sep)] for a one-character separator: never empty. *)
Fixpoint split_on (sep : ascii) (s : string) : list string :=
  match s with
  | EmptyString => [EmptyString]
  | String c s' =>
      if Ascii.eqb c sep then EmptyString :: split_on sep s'
      else match split_on sep s' with
           | t :: ts => String c t :: ts
           | [] => [String c EmptyString]
           end
  end.

(** [sep.join(toks)]. *)
Fixpoint join (sep : ascii) (toks : list string) : string :=
  match toks with
  | [] => EmptyString
  | [t] => t
  | t :: ts => t +:+ String sep (join sep ts)
  end.

(** [s.replace(c, '')]. *)
Fixpoint remove_char (c : ascii) (s : string) : string :=
  match s with
  | EmptyString => EmptyString
  | String a s' =>
      if Ascii.eqb a c then remove_char c s' else String a (remove_char c s')
  end.

(** [sub in s]. *)
Fixpoint contains (sub s : string) : bool :=
  String.prefix sub s
  || match s with EmptyString => false | String _ s' => contains sub s' end.

(** [s[a:b]] for [0 <= a <= b]: slices clamp, they never raise. *)
Definition slice (a b : nat) (s : string) : string := String.substring a (b - a) s.

Fixpoint lstrip (s : string) : string :=
  match s with
  | EmptyString => EmptyString
  | String c s' => if is_space c then lstrip s' else s
  end.
Definition strip (s : string) : string :=
  String.rev (lstrip (String.rev (lstrip s))).

Definition lower_char (c : ascii) : ascii :=
  let n := nat_of_ascii c in
  if (65 <=? n) && (n <=? 90) then ascii_of_nat (n + 32) else c.
Fixpoint lower (s : string) : string :=
  match s with
  | EmptyString => EmptyString
  | String c s' => String (lower_char c) (lower s')
  end.

(** [c in s] for a character. *)
Fixpoint has_char (c : ascii) (s : string) : bool :=
  match s with
  | EmptyString => false
  | String a s' => Ascii.eqb a c || has_char c s'
  end.

End Str.

(** ** Numeric literals: [int(s)] and [float(s)] *)

Definition digit_of (c : ascii) : option Z :=
  let n := nat_of_ascii c in
  if (48 <=? n) && (n <=? 57) then Some (Z.of_nat n - 48)%Z else None.

(** A [digitpart]: digits, single underscores allowed between two digits.
    Returns the accumulated value, the number of digits read and the rest. *)
Fixpoint digitpart (acc : Z) (cnt : nat) (s : string) : Z * nat * string :=
  match s with
  | EmptyString => (acc, cnt, s)
  | String c s' =>
      match digit_of c with
      | Some d => digitpart (acc * 10 + d)%Z (S cnt) s'
      | None =>
          match cnt, s' with
          | S _, String c' _ =>
              if Ascii.eqb c "_" && bool_decide (is_Some (digit_of c'))
              then digitpart acc cnt s' else (acc, cnt, s)
          | _, _ => (acc, cnt, s)
          end
      end
  end.

Definition split_sign (s : string) : bool * string :=
  match s with
  | String "-" s' => (true, s')
  | String "+" s' => (false, s')
  | _ => (false, s)
  end.

(** [int(s)], base ten. *)
Definition py_int (s : string) : result Z :=
  let '(neg, body) := split_sign (Str.strip s) in
  match digitpart 0 0 body with
  | (v, S _, EmptyString) => Ok (if neg then (- v)%Z else v)
  | _ => Raise ValueError
  end.

(** The binary64 number nearest to [± m * 10^e] (ties to even), for [0 <= m].
    A negative exponent is a division: the quotient is taken with at least
    64 significant bits and one sticky bit, then rounded once. *)
Definition float_of_decimal (neg : bool) (m e : Z) : float :=
  let signed (z : Z) := if neg then (- z)%Z else z in
  if (0 <=? e)%Z then SF2Prim (binary_normalize 53 1024 (signed (m * 10 ^ e)%Z) 0 neg)
  else
    let d := (10 ^ (- e))%Z in
    let s := (Z.log2 d + 64)%Z in
    let n := (m * 2 ^ s)%Z in
    let sticky := if (n mod d =? 0)%Z then 0%Z else 1%Z in
    SF2Prim (binary_normalize 53 1024 (signed (2 * (n / d) + sticky)%Z) (- s - 1) neg).

(** [float(s)]: optional sign, then [inf], [infinity], [nan] in any case, or
    a decimal number with an optional exponent. *)
Definition py_float (s : string) : result float :=
  let '(neg, body) := split_sign (Str.strip s) in
  let word := Str.lower body in
  if bool_decide (word = "inf" ∨ word = "infinity")
  then Ok (if neg then neg_infinity else infinity)
  else if bool_decide (word = "nan") then Ok nan
  else
    let '(ip, ni, r1) := digitpart 0 0 body in
    let '(m, nf, r2) :=
      match r1 with
      | String "." r => digitpart ip 0 r
      | _ => (ip, 0, r1)
      end in
    if (ni + nf =? 0) then Raise ValueError
    else
      match r2 with
      | EmptyString => Ok (float_of_decimal neg m (- Z.of_nat nf))
      | String c r3 =>
          if bool_decide (c = "e"%char ∨ c = "E"%char) then
            let '(eneg, r4) := split_sign r3 in
            match digitpart 0 0 r4 with
            | (ev, S _, EmptyString) =>
                Ok (float_of_decimal neg m ((if eneg then - ev else ev) - Z.of_nat nf))
            | _ => Raise ValueError
            end
          else Raise ValueError
      end.

(** ** Float arithmetic *)

(** The operations the container and the normaliser use on floats. [f_div]
    is IEEE division (numpy's, which never raises); Python's own [/] on two
    floats is [truediv] below. *)
Class PyFloat (F : Type) := {
  f_add : F → F → F;
  f_sub : F → F → F;
  f_mul : F → F → F;
  f_div : F → F → F;
  f_is_zero : F → bool;
  f_leb : F → F → bool;
  f_ltb : F → F → bool;
  f_zero : F;
  f_86400 : F
}.

(** What the interpreter runs. *)
Global Instance binary64 : PyFloat float := {|
  f_add := PrimFloat.add;
  f_sub := PrimFloat.sub;
  f_mul := PrimFloat.mul;
  f_div := PrimFloat.div;
  f_is_zero x := PrimFloat.eqb x 0%float;
  f_leb := PrimFloat.leb;
  f_ltb := PrimFloat.ltb;
  f_zero := 0%float;
  f_86400 := 86400%float
|}.

(** Exact arithmetic. *)
Global Instance exact : PyFloat R := {|
  f_add := Rplus;
  f_sub := Rminus;
  f_mul := Rmult;
  f_div := Rdiv;
  f_is_zero x := if Req_dec_T x 0%R then true else false;
  f_leb x y := if Rle_dec x y then true else false;
  f_ltb x y := if Rlt_dec x y then true else false;
  f_zero := 0%R;
  f_86400 := 86400%R
|}.

(** [x/y] on two Python floats. *)
Definition truediv `{PyFloat F} (x y : F) : result F :=
  if f_is_zero y then Raise ZeroDivisionError else Ok (f_div x y).

Definition non_decreasing `{PyFloat F} (l : list F) : Prop :=
  ∀ i j x y, i ≤ j → l !! i = Some x → l !! j = Some y → f_leb x y = true.

(** ** Station identifiers *)

(** A station id is an [int] when its token is numeric, else the token. *)
Inductive StationId : Set :=
  | IntId (n : Z)
  | StrId (s : string).

Global Instance StationId_eq_dec : EqDecision StationId.
Proof. solve_decision. Defined.

Global Instance StationId_countable : Countable StationId.
Proof.
  refine (inj_countable'
    (λ k, match k with IntId n => inl n | StrId s => inr s end)
    (λ x, match x with inl n => IntId n | inr s => StrId s end) _).
  by intros [].
Defined.

(** [station_id = tok.strip()], then [int(station_id)] if that succeeds. *)
Definition coerce_station_id (tok : string) : StationId :=
  let s := Str.strip tok in
  match py_int s with Ok n => IntId n | Raise _ => StrId s end.

(** ** Python lists and numpy arrays *)

Inductive pyseq (A : Type) : Type :=
  | PyList (l : list A)
  | NdArray (l : list A).
Arguments PyList {A} l.
Arguments NdArray {A} l.

Definition items {A} (s : pyseq A) : list A :=
  match s with PyList l | NdArray l => l end.

(** [s.append(x)]: a list grows, an array has no such method. *)
Definition append {A} (s : pyseq A) (x : A) : result (pyseq A) :=
  match s with
  | PyList l => Ok (PyList (l ++ [x]))
  | NdArray _ => Raise AttributeError
  end.

(** [np.array(s)]. *)
Definition np_array {A} (s : pyseq A) : pyseq A := NdArray (items s).

(** [s op= x] with a float [x]: elementwise and in place on an array, a
    [TypeError] on a list. *)
Definition inplace {A} (op : A → A → A) (s : pyseq A) (x : A) : result (pyseq A) :=
  match s with
  | NdArray l => Ok (NdArray (map (λ t, op t x) l))
  | PyList _ => Raise TypeError
  end.

(** ** The observation container *)

Section Container.
Context {F : Type} `{PyFloat F}.
(** [np.radians]. *)
Variable radians : F → F.

Record MeteorObservation : Type := {
  jdt_ref : F;
  station_id : StationId;
  latitude : F;
  longitude : F;
  height : F;
  fps : F;
  time_data : pyseq F;
  azim_data : pyseq F;
  elev_data : pyseq F;
  ra_data : pyseq F;
  dec_data : pyseq F;
  mag_data : list (option F);
  abs_mag_data : list (option F)
}.

(** What [print] writes, by call site. *)
Inductive message : Type :=
  | PointTime (t : F)
  | ApplyingTimeOffset (station : string) (offset : F)
  | TimeOffsetNotFound
  | NoStationInfo (station : StationId)
  | Exiting
  | Printed (meteor : MeteorObservation)
  | NoSuchSolver (solver : string)
  | UnrecognizedSolver (solver : string).

(** The store of observation objects and the console. A reference is an
    index in [objects]. *)
Record world : Type := {
  objects : list MeteorObservation;
  console : list message
}.

Definition deref (w : world) (r : nat) : result MeteorObservation :=
  match objects w !! r with Some o => Ok o | None => Raise InvalidRef end.

Definition assign (w : world) (r : nat) (o : MeteorObservation) : world :=
  {| objects := <[r := o]> (objects w); console := console w |}.

Definition print (w : world) (m : message) : world :=
  {| objects := objects w; console := console w ++ [m] |}.

(** Field updates. *)
Definition set_points (o : MeteorObservation)
    (t az el ra dec : pyseq F) (mag : list (option F)) : MeteorObservation :=
  {| jdt_ref := jdt_ref o; station_id := station_id o; latitude := latitude o;
     longitude := longitude o; height := height o; fps := fps o;
     time_data := t; azim_data := az; elev_data := el; ra_data := ra;
     dec_data := dec; mag_data := mag; abs_mag_data := abs_mag_data o |}.

Definition set_epoch (o : MeteorObservation) (jd : F) (t : pyseq F) : MeteorObservation :=
  {| jdt_ref := jd; station_id := station_id o; latitude := latitude o;
     longitude := longitude o; height := height o; fps := fps o;
     time_data := t; azim_data := azim_data o; elev_data := elev_data o;
     ra_data := ra_data o; dec_data := dec_data o; mag_data := mag_data o;
     abs_mag_data := abs_mag_data o |}.

(** [MeteorObservation.__init__]. *)
Definition init (jd : F) (sid : StationId) (lat lon ht rate : F) : MeteorObservation :=
  {| jdt_ref := jd; station_id := sid; latitude := lat; longitude := lon;
     height := ht; fps := rate;
     time_data := PyList []; azim_data := PyList []; elev_data := PyList [];
     ra_data := PyList []; dec_data := PyList []; mag_data := [];
     abs_mag_data := [] |}.

(** [MeteorObservation(...)]: a new object, and the reference to it. *)
Definition new (w : world) (jd : F) (sid : StationId) (lat lon ht rate : F) : world * nat :=
  ({| objects := objects w ++ [init jd sid lat lon ht rate]; console := console w |},
   length (objects w)).

(** [MeteorObservation.addPoint]. *)
Definition addPoint (w : world) (self : nat)
    (frame_n azim elev ra dec : F) (mag : option F) : result world :=
  o ← deref w self;
  point_time ← truediv frame_n (fps o);
  let w := print w (PointTime point_time) in
  time_data' ← append (time_data o) point_time;
  azim_data' ← append (azim_data o) (radians azim);
  elev_data' ← append (elev_data o) (radians elev);
  ra_data' ← append (ra_data o) (radians ra);
  dec_data' ← append (dec_data o) (radians dec);
  Ok (assign w self
        (set_points o time_data' azim_data' elev_data' ra_data' dec_data'
           (mag_data o ++ [mag]))).

(** [MeteorObservation.finish]: [mag_data] stays a list. *)
Definition finish (w : world) (self : nat) : result world :=
  o ← deref w self;
  Ok (assign w self
        (set_points o (np_array (time_data o)) (np_array (azim_data o))
           (np_array (elev_data o)) (np_array (ra_data o))
           (np_array (dec_data o)) (mag_data o))).

(** The six per-point sequences have one length. *)
Definition same_length (o : MeteorObservation) : Prop :=
  let n := length (items (time_data o)) in
  length (items (azim_data o)) = n ∧ length (items (elev_data o)) = n
  ∧ length (items (ra_data o)) = n ∧ length (items (dec_data o)) = n
  ∧ length (mag_data o) = n.

End Container.

Arguments MeteorObservation F : clear implicits.
Arguments message F : clear implicits.
Arguments world F : clear implicits.

(** ** Loops over the lines of a file *)

(** [for i in range(n): next(f)]. *)
Fixpoint skip_lines (n : nat) (f : list string) : result (list string) :=
  match n, f with
  | 0, _ => Ok f
  | S n', _ :: f' => skip_lines n' f'
  | S _, [] => Raise StopIteration
  end.

(** [for x in l: body], the body threading the state [S]. *)
Fixpoint for_each {S A} (body : S → A → result S) (s : S) (l : list A) : result S :=
  match l with
  | [] => Ok s
  | x :: l' => s' ← body s x; for_each body s' l'
  end.

(** How an iteration of a loop with [break] ends. *)
Inductive flow : Set := Continue | Break.

Fixpoint for_each_break {S A} (body : S → A → result (flow * S)) (s : S) (l : list A)
    : result S :=
  match l with
  | [] => Ok s
  | x :: l' =>
      r ← body s x;
      match r with
      | (Continue, s') => for_each_break body s' l'
      | (Break, s') => Ok s'
      end
  end.

(** [enumerate(l)], counting from [i]. *)
Fixpoint enumerate {A} (i : nat) (l : list A) : list (nat * A) :=
  match l with
  | [] => []
  | x :: l' => (i, x) :: enumerate (S i) l'
  end.

Definition LF : ascii := "010"%char.
Definition CR : ascii := "013"%char.

(** [float(line[i])]. *)
Definition float_at (line : list string) (i : nat) : result float :=
  tok ← index line i; py_float tok.

(** ** The loaders of CAMS.py *)

Section Loaders.
(** [np.radians]. *)
Variable radians : float → float.
(** [wmpl.Utils.TrajConversions.date2JD], which is not part of these files:
    year, month, day, hour, minute, second, millisecond to a Julian date, or
    the exception it raises. *)
Variable date2JD : Z → Z → Z → Z → Z → Z → Z → result float.

(** *** [loadCameraTimeOffsets] *)

(** The body of the loop over the lines that follow the header. *)
Definition time_offset_line (time_offsets : gmap StationId float) (line : string)
    : result (gmap StationId float) :=
  let line := Str.split (Str.remove_char LF line) in
  tok ← index line 0;
  let station_id := coerce_station_id tok in
  t_offset ← float_at line 1;
  Ok (<[station_id := t_offset]> time_offsets).

Definition loadCameraTimeOffsets (f : list string) : result (gmap StationId float) :=
  body ← skip_lines 2 f;
  for_each time_offset_line ∅ body.

(** *** [loadCameraSites] *)

(** [line[0]] on a string. *)
Definition first_char (line : string) : result ascii :=
  match line with String c _ => Ok c | EmptyString => Raise IndexError end.

Definition camera_site_line (stations : gmap StationId (float * float * float))
    (line : string) : result (gmap StationId (float * float * float)) :=
  c ← first_char line;
  if bool_decide (c = "#"%char) then Ok stations
  else
    let line := Str.remove_char LF line in
    if bool_decide (line = EmptyString) then Ok stations
    else
      match take 4 (Str.split line) with
      | [station_id; lat; lon; height] =>
          let station_id := coerce_station_id station_id in
          lat ← py_float lat;
          lon ← py_float lon;
          height ← py_float height;
          Ok (<[station_id := (radians lat, radians (- lon)%float, (height * 1000)%float)]>
                stations)
      | _ => Raise ValueError
      end.

Definition loadCameraSites (f : list string)
    : result (gmap StationId (float * float * float)) :=
  body ← skip_lines 2 f;
  for_each camera_site_line ∅ body.

(** *** [loadFTPDetectInfo] *)

(** The local variables of the function, with the store and the console.
    [jdt_ref_var] is the local [jdt_ref], unbound until a bin line is read. *)
Record locals : Type := {
  heap : world float;
  meteor_list : list nat;
  current_meteor : option nat;
  bin_name : bool;
  cal_name : bool;
  meteor_header : bool;
  jdt_ref_var : option float
}.

Definition read_jdt_ref (st : locals) : result float :=
  match jdt_ref_var st with Some jd => Ok jd | None => Raise UnboundLocalError end.

(** [current_meteor.finish(); meteor_list.append(current_meteor)], guarded by
    [current_meteor is not None]. The variable keeps its value. *)
Definition save_current (st : locals) : result locals :=
  match current_meteor st with
  | Some m =>
      w ← finish (heap st) m;
      Ok {| heap := w; meteor_list := meteor_list st ++ [m];
            current_meteor := current_meteor st; bin_name := bin_name st;
            cal_name := cal_name st; meteor_header := meteor_header st;
            jdt_ref_var := jdt_ref_var st |}
  | None => Ok st
  end.

(** The bin line: the reference time from the name of the FF file. *)
Definition bin_line_jd (line : string) : result float :=
  let line := Str.split_on "_" line in
  let sc := if length line =? 6 then 1 else 0 in
  ff_date ← index line (1 + sc);
  ff_time ← index line (2 + sc);
  milliseconds ← index line (3 + sc);
  year ← py_int (Str.slice 0 4 ff_date);
  month ← py_int (Str.slice 4 6 ff_date);
  day ← py_int (Str.slice 6 8 ff_date);
  hour ← py_int (Str.slice 0 2 ff_time);
  minute ← py_int (Str.slice 2 4 ff_time);
  seconds ← py_int (Str.slice 4 6 ff_time);
  milliseconds ← py_int milliseconds;
  date2JD year month day hour minute seconds milliseconds.

(** ['{:s}'.format(station_id)]: the presentation type [s] exists for strings
    only, an [int] argument raises [ValueError]. *)
Definition format_s (station_id : StationId) : result string :=
  match station_id with
  | StrId s => Ok s
  | IntId _ => Raise ValueError
  end.

(** The meteor header line. *)
Definition header_line (stations : gmap StationId (float * float * float))
    (time_offsets : option (gmap StationId float)) (st : locals) (line : string)
    : result (flow * locals) :=
  let line := Str.split line in
  tok ← index line 0;
  fps ← float_at line 3;
  let station_id := coerce_station_id tok in
  r ← match time_offsets with
      | None => Ok (heap st, jdt_ref_var st)
      | Some offsets =>
          match offsets !! station_id with
          | Some t_offset =>
              name ← format_s station_id;
              jd ← read_jdt_ref st;
              Ok (print (heap st) (ApplyingTimeOffset name t_offset),
                  Some (jd + t_offset / 86400)%float)
          | None => Ok (print (heap st) TimeOffsetNotFound, jdt_ref_var st)
          end
      end;
  let '(w, jdt_ref_var') := r in
  match stations !! station_id with
  | Some (lat, lon, height) =>
      jd ← match jdt_ref_var' with Some jd => Ok jd | None => Raise UnboundLocalError end;
      let '(w, m) := new w jd station_id lat lon height fps in
      Ok (Continue,
          {| heap := w; meteor_list := meteor_list st; current_meteor := Some m;
             bin_name := bin_name st; cal_name := cal_name st;
             meteor_header := meteor_header st; jdt_ref_var := jdt_ref_var' |})
  | None =>
      Ok (Break,
          {| heap := print (print w (NoStationInfo station_id)) Exiting;
             meteor_list := meteor_list st; current_meteor := current_meteor st;
             bin_name := bin_name st; cal_name := cal_name st;
             meteor_header := meteor_header st; jdt_ref_var := jdt_ref_var' |})
  end.

(** The visual magnitude of a point line, if present. *)
Definition read_mag (line : list string) : result (option float) :=
  if 7 <? length line then
    mag ← index line 8;
    if bool_decide (mag = "inf") then Ok None
    else mag ← py_float mag; Ok (Some mag)
  else Ok None.

(** A point line, read into the meteor [m]. *)
Definition point_line (st : locals) (m : nat) (line : string) : result locals :=
  let line := Str.split (Str.remove_char LF line) in
  frame_n ← float_at line 0;
  ra ← float_at line 3;
  dec ← float_at line 4;
  azim ← float_at line 5;
  elev ← float_at line 6;
  mag ← read_mag line;
  w ← addPoint radians (heap st) m frame_n azim elev ra dec mag;
  Ok {| heap := w; meteor_list := meteor_list st;
        current_meteor := current_meteor st; bin_name := bin_name st;
        cal_name := cal_name st; meteor_header := meteor_header st;
        jdt_ref_var := jdt_ref_var st |}.

Definition set_flags (st : locals) (b c h : bool) : locals :=
  {| heap := heap st; meteor_list := meteor_list st;
     current_meteor := current_meteor st; bin_name := b; cal_name := c;
     meteor_header := h; jdt_ref_var := jdt_ref_var st |}.

Definition set_jdt_ref (st : locals) (jd : float) : locals :=
  {| heap := heap st; meteor_list := meteor_list st;
     current_meteor := current_meteor st; bin_name := bin_name st;
     cal_name := cal_name st; meteor_header := meteor_header st;
     jdt_ref_var := Some jd |}.

(** The body of the loop over the lines that follow the header. *)
Definition detect_line (stations : gmap StationId (float * float * float))
    (time_offsets : option (gmap StationId float)) (st : locals) (line : string)
    : result (flow * locals) :=
  let line := Str.remove_char CR (Str.remove_char LF line) in
  if bool_decide (line = EmptyString) then Ok (Continue, st)
  else if Str.contains "-----" line then
    st ← save_current (set_flags st true (cal_name st) (meteor_header st));
    Ok (Continue, st)
  else if bin_name st then
    jd ← bin_line_jd line;
    Ok (Continue, set_jdt_ref (set_flags st false true (meteor_header st)) jd)
  else if cal_name st then
    Ok (Continue, set_flags st (bin_name st) false true)
  else if meteor_header st then
    header_line stations time_offsets (set_flags st (bin_name st) (cal_name st) false) line
  else
    match current_meteor st with
    | Some m =>
        if negb (bin_name st) && negb (cal_name st) && negb (meteor_header st)
        then st ← point_line st m line; Ok (Continue, st)
        else Ok (Continue, st)
    | None => Ok (Continue, st)
    end.

Definition start : locals :=
  {| heap := {| objects := []; console := [] |}; meteor_list := [];
     current_meteor := None; bin_name := false; cal_name := false;
     meteor_header := false; jdt_ref_var := None |}.

(** The call returns [meteor_list]; the result here is the store the
    references of the list point into (with the console), and the list. *)
Definition loadFTPDetectInfo (f : list string)
    (stations : gmap StationId (float * float * float))
    (time_offsets : option (gmap StationId float))
    : result (world float * list nat) :=
  body ← skip_lines 11 f;
  st ← for_each_break (detect_line stations time_offsets) start body;
  st ← save_current st;
  Ok (heap st, meteor_list st).

End Loaders.

(** ** [prepareObservations] *)

Section Solving.
Context {F : Type} `{PyFloat F}.
(** From [wmpl.Utils.TrajConversions], which is not part of these files: the
    epoch [J2000_JD.days] and the two vectorised coordinate transforms. *)
Variable J2000_JD_days : F.
Variable equatorialCoordPrecession_vect : F → list F → list F → list F → list F * list F.
Variable raDec2AltAz_vect : list F → list F → F → F → F → list F * list F.

(** The body of the loop that brings the meteors to the time of the
    reference one, [meteor_list[ref_ind]], here [ref]. *)
Definition correct_time (ref_ind ref : nat) (w : world F) (im : nat * nat)
    : result (world F) :=
  let '(i, meteor) := im in
  if bool_decide (i ≠ ref_ind) then
    m ← deref w meteor;
    r ← deref w ref;
    let jdt_diff := f_sub (jdt_ref m) (jdt_ref r) in
    let tsec_diff := f_mul jdt_diff f_86400 in
    time_data' ← inplace f_add (time_data m) tsec_diff;
    Ok (assign w meteor (set_epoch m (f_sub (jdt_ref m) jdt_diff) time_data'))
  else Ok w.

(** The body of the loop that precesses from J2000 to the epoch of date. *)
Definition precess (jd : F) (w : world F) (meteor : nat) : result (world F) :=
  m ← deref w meteor;
  let jdt_ref_vect := map (λ _, f_add f_zero jd) (items (ra_data m)) in
  let '(ra_prec, dec_prec) :=
    equatorialCoordPrecession_vect J2000_JD_days jdt_ref_vect
      (items (ra_data m)) (items (dec_data m)) in
  let '(azim, elev) :=
    raDec2AltAz_vect ra_prec dec_prec jd (latitude m) (longitude m) in
  Ok (assign w meteor
        (set_points m (time_data m) (NdArray azim) (NdArray elev)
           (NdArray ra_prec) (NdArray dec_prec) (mag_data m))).

(** Returns [(jdt_ref, meteor_list)], or [(None, None)] for an empty list:
    here [Some (jdt_ref, meteor_list)] or [None], with the store. *)
Definition prepareObservations (w : world F) (meteor_list : list nat)
    : result (world F * option (F * list nat)) :=
  match meteor_list with
  | [] => Ok (w, None)
  | _ :: _ =>
      let ref_ind := 0 in
      ref ← index meteor_list ref_ind;
      r ← deref w ref;
      tsec_delta ← index (items (time_data r)) 0;
      let jdt_delta := f_div tsec_delta f_86400 in
      time_data' ← inplace f_sub (time_data r) tsec_delta;
      let w := assign w ref (set_epoch r (f_add (jdt_ref r) jdt_delta) time_data') in
      w ← for_each (correct_time ref_ind ref) w (enumerate 0 meteor_list);
      let meteor_list_tcorr := meteor_list in
      ref ← index meteor_list_tcorr ref_ind;
      r ← deref w ref;
      let jd := jdt_ref r in
      w ← for_each (precess jd) w meteor_list_tcorr;
      Ok (w, Some (jd, meteor_list_tcorr))
  end.

(** ** The solver adapters *)

(** The solvers ([wmpl.Trajectory]) and the pickle loader are not part of
    these files. A solver object is a value of [traj]; constructing one,
    feeding it a station and running it may raise. *)
Variable traj : Type.
(** Keyword arguments passed through to the solver, [max_toffset] apart. *)
Variable options : Type.
Variable excluded ignored : Type.

Record kwargs : Type := {
  kw_max_toffset : option (option F);
  kw_others : options
}.

(** The arguments of one [infillTrajectory] call; an optional argument that
    is not passed is [None]. *)
Record infill : Type := {
  in_meas1 : pyseq F;
  in_meas2 : pyseq F;
  in_time_data : pyseq F;
  in_lat : F;
  in_lon : F;
  in_ele : F;
  in_station_id : option StationId;
  in_excluded_time : option (option excluded);
  in_ignore_list : option ignored
}.

(** [Trajectory(jdt_ref, output_dir=, meastype=, **kwargs)]. *)
Variable Trajectory : F → string → Z → kwargs → result traj.
(** [GuralTrajectory(n, jdt_ref, velmodel=, max_toffset=, meastype=, output_dir=)]. *)
Variable GuralTrajectory : nat → F → Z → option (option F) → Z → string → result traj.
Variable infillTrajectory : traj → infill → result traj.
Variable run : traj → result traj.

(** *** [solveTrajectoryCAMS] *)

Definition infill_meteor (solver : string) (w : world F) (t : traj) (meteor : nat)
    : result traj :=
  m ← deref w meteor;
  let args (sid : option StationId) :=
    {| in_meas1 := azim_data m; in_meas2 := elev_data m;
       in_time_data := time_data m; in_lat := latitude m;
       in_lon := longitude m; in_ele := height m; in_station_id := sid;
       in_excluded_time := None; in_ignore_list := None |} in
  if bool_decide (solver = "original") then
    infillTrajectory t (args (Some (station_id m)))
  else if bool_decide (solver = "gural") then infillTrajectory t (args None)
  else Ok t.

Definition solveTrajectoryCAMS (w : world F) (meteor_list : list nat)
    (output_dir solver : string) (kw : kwargs) : result (world F * option traj) :=
  r ← prepareObservations w meteor_list;
  let '(w, prepared) := r in
  match prepared with
  | Some (jd, meteor_list) =>
      w ← for_each (λ w meteor, m ← deref w meteor; Ok (print w (Printed m)))
            w meteor_list;
      t ← (if bool_decide (solver = "original") then
             Some <$> Trajectory jd output_dir 2 kw
           else if bool_decide (solver = "gural") then
             Some <$> GuralTrajectory (length meteor_list) jd 3 None 2 output_dir
           else Ok None);
      match t with
      | None => Ok (print w (NoSuchSolver solver), None)
      | Some t =>
          t ← for_each (infill_meteor solver w) t meteor_list;
          t ← run t;
          Ok (w, Some t)
      end
  | None => Ok (w, None)
  end.

(** *** [solveTrajectoryPickle] *)

(** An observation of a pickled trajectory; [po_excluded_time] is [None]
    when the object has no such attribute. *)
Record pickled_obs : Type := {
  po_meas1 : pyseq F;
  po_meas2 : pyseq F;
  po_time_data : pyseq F;
  po_lat : F;
  po_lon : F;
  po_ele : F;
  po_station_id : StationId;
  po_excluded_time : option (option excluded);
  po_ignore_list : ignored
}.

Record pickled : Type := {
  pt_jdt_ref : F;
  pt_max_toffset : option F;
  pt_meastype : Z;
  pt_observations : list pickled_obs;
  pt_has_excluded_time : bool;
  pt_save_results : bool
}.

Variable loadPickle : string → string → result pickled.
(** [traj_p.savePlots(None, None, show_plots=True)]. *)
Variable savePlots : pickled → result unit.

(** [max(a, b)]. *)
Definition py_max (a b : F) : F := if f_ltb a b then b else a.

Definition rerun_original (traj_p : pickled) (dir_path : string) (kw : kwargs)
    : result traj :=
  let max_toffset := pt_max_toffset traj_p in
  let max_toffset :=
    match kw_max_toffset kw with
    | Some given =>
        match given, pt_max_toffset traj_p with
        | Some g, Some p => Some (py_max p g)
        | _, _ => max_toffset
        end
    | None => max_toffset
    end in
  t ← Trajectory (pt_jdt_ref traj_p) dir_path (pt_meastype traj_p)
        {| kw_max_toffset := Some max_toffset; kw_others := kw_others kw |};
  for_each (λ t obs,
      excluded_time ← (if pt_has_excluded_time traj_p then
                         match po_excluded_time obs with
                         | Some e => Ok e
                         | None => Raise AttributeError
                         end
                       else Ok None);
      infillTrajectory t
        {| in_meas1 := po_meas1 obs; in_meas2 := po_meas2 obs;
           in_time_data := po_time_data obs; in_lat := po_lat obs;
           in_lon := po_lon obs; in_ele := po_ele obs;
           in_station_id := Some (po_station_id obs);
           in_excluded_time := Some excluded_time;
           in_ignore_list := Some (po_ignore_list obs) |})
    t (pt_observations traj_p).

Definition rerun_gural (traj_p : pickled) (dir_path : string) : result traj :=
  t ← GuralTrajectory (length (pt_observations traj_p)) (pt_jdt_ref traj_p) 3
        (Some (pt_max_toffset traj_p)) (pt_meastype traj_p) dir_path;
  for_each (λ t obs,
      infillTrajectory t
        {| in_meas1 := po_meas1 obs; in_meas2 := po_meas2 obs;
           in_time_data := po_time_data obs; in_lat := po_lat obs;
           in_lon := po_lon obs; in_ele := po_ele obs;
           in_station_id := None; in_excluded_time := None;
           in_ignore_list := None |})
    t (pt_observations traj_p).

(** Reading the local [traj], which only the two solver branches bind. *)
Definition read_traj (traj_var : option traj) : result traj :=
  match traj_var with Some t => Ok t | None => Raise UnboundLocalError end.

(** What the call prints, and how it ends. *)
Definition solveTrajectoryPickle (dir_path file_name : string) (only_plot : bool)
    (solver : string) (kw : kwargs) : list (message F) * result traj :=
  match loadPickle dir_path file_name with
  | Raise e => ([], Raise e)
  | Ok traj_p =>
      let '(out, traj_var) :=
        if bool_decide (solver = "original") then
          ([], Some <$> rerun_original traj_p dir_path kw)
        else if bool_decide (solver = "gural") then
          ([], Some <$> rerun_gural traj_p dir_path)
        else ([UnrecognizedSolver solver], Ok None) in
      (out,
       traj_var ← traj_var;
       if only_plot then
         let traj_p :=
           {| pt_jdt_ref := pt_jdt_ref traj_p; pt_max_toffset := pt_max_toffset traj_p;
              pt_meastype := pt_meastype traj_p;
              pt_observations := pt_observations traj_p;
              pt_has_excluded_time := pt_has_excluded_time traj_p;
              pt_save_results := false |} in
         _ ← savePlots traj_p;
         read_traj traj_var
       else
         t ← read_traj traj_var;
         run t)
  end.

End Solving.

Arguments kwargs F options : clear implicits.
Arguments infill F excluded ignored : clear implicits.
Arguments pickled_obs F excluded ignored : clear implicits.
Arguments pickled F excluded ignored : clear implicits.

(** ** Export and photometry (CAMS.py) *)

Section Exporters.
Context {F : Type} `{PyFloat F}.
Variable J2000_JD_days : F.
Variable equatorialCoordPrecession_vect : F → list F → list F → list F → list F * list F.
Variable raDec2AltAz_vect : list F → list F → F → F → F → list F * list F.
(** The float of an integer literal, [np.pi], [x % y] on floats with a
    divisor that is not zero, and [np.log10]. *)
Variable of_int : Z → F.
Variable np_pi : F.
Variable np_mod : F → F → F.
Variable np_log10 : F → F.

(** [wmpl.Formats.Milig.StationData], which is not part of these files: the
    four arguments of its constructor, in the order this code passes them,
    and the three lists this code appends to. *)
Record StationData : Type := {
  sd_station_id : Z;
  sd_longitude : F;
  sd_latitude : F;
  sd_height : F;
  sd_azim_data : list F;
  sd_zangle_data : list F;
  sd_time_data : list F
}.

(** [int(meteor.station_id)], or [i + 1] on [ValueError]. *)
Definition milig_station_id (i : nat) (sid : StationId) : Z :=
  match sid with
  | IntId n => n
  | StrId s => match py_int s with Ok n => n | Raise _ => (Z.of_nat i + 1)%Z end
  end.

(** The body of the loop of [cams2MiligInput] over [enumerate(meteor_list)]:
    [zip] stops at the shortest of the three sequences. *)
Definition milig_station (i : nat) (m : MeteorObservation F) : StationData :=
  let points := zip (zip (items (azim_data m)) (items (elev_data m)))
                    (items (time_data m)) in
  {| sd_station_id := milig_station_id i (station_id m);
     sd_longitude := longitude m; sd_latitude := latitude m;
     sd_height := height m;
     sd_azim_data :=
       map (λ p, np_mod (f_add p.1.1 np_pi) (f_mul (of_int 2) np_pi)) points;
     sd_zangle_data := map (λ p, f_sub (f_div np_pi (of_int 2)) p.1.2) points;
     sd_time_data := map (λ p, p.2) points |}.

Definition milig_list (w : world F) (meteor_list : list nat) : result (list StationData) :=
  for_each (λ acc im, m ← deref w im.2; Ok (acc ++ [milig_station im.1 m]))
    [] (enumerate 0 meteor_list).

(** [writeMiligInputFile] is not part of these files. For an empty list
    [prepareObservations] returns [(None, None)], and [enumerate(None)]
    raises [TypeError]. *)
Definition cams2MiligInput
    (writeMiligInputFile : F → list StationData → string → result unit)
    (w : world F) (meteor_list : list nat) (file_path : string) : result (world F) :=
  r ← prepareObservations J2000_JD_days equatorialCoordPrecession_vect
         raDec2AltAz_vect w meteor_list;
  let '(w, prepared) := r in
  match prepared with
  | None => Raise TypeError
  | Some (jd, meteor_list) =>
      stations ← milig_list w meteor_list;
      _ ← writeMiligInputFile jd stations file_path;
      Ok w
  end.

Definition set_abs_mag_data (o : MeteorObservation F) (a : list (option F))
    : MeteorObservation F :=
  {| jdt_ref := jdt_ref o; station_id := station_id o; latitude := latitude o;
     longitude := longitude o; height := height o; fps := fps o;
     time_data := time_data o; azim_data := azim_data o; elev_data := elev_data o;
     ra_data := ra_data o; dec_data := dec_data o; mag_data := mag_data o;
     abs_mag_data := a |}.

(** [mag + 5*np.log10((10**5)/dist)], or [None] for a missing magnitude. The
    range is an element of a numpy array: the division does not raise. *)
Definition abs_mag (dist : F) (mag : option F) : option F :=
  match mag with
  | Some mag =>
      Some (f_add mag (f_mul (of_int 5) (np_log10 (f_div (of_int 100000) dist))))
  | None => None
  end.

(** The body of the loop of [computeAbsoluteMagnitudes]; [model_ranges] gives
    [traj.observations[i].model_range] for each [i]. *)
Definition absolute_magnitudes (model_ranges : list (list F)) (w : world F)
    (im : nat * nat) : result (world F) :=
  let '(i, meteor_obs) := im in
  model_range ← index model_ranges i;
  o ← deref w meteor_obs;
  Ok (assign w meteor_obs
        (set_abs_mag_data o
           (abs_mag_data o
            ++ map (λ p, abs_mag p.1 p.2) (zip model_range (mag_data o))))).

Definition computeAbsoluteMagnitudes (model_ranges : list (list F)) (w : world F)
    (meteor_list : list nat) : result (world F) :=
  for_each (absolute_magnitudes model_ranges) w (enumerate 0 meteor_list).

End Exporters.

Arguments StationData F : clear implicits.

(** ** Vocabulary of the statements *)

(** The fields of a line of the time-offset file, and whether the line has
    a second field that [float] accepts. *)
Definition offset_fields (line : string) : list string :=
  Str.split (Str.remove_char LF line).

Definition offset_line_ok (line : string) : bool :=
  match offset_fields line !! 1 with
  | Some tok => is_ok (py_float tok)
  | None => false
  end.


Definition is_array {A} (s : pyseq A) : bool :=
  match s with NdArray _ => true | PyList _ => false end.

(** A method call on an observation. *)
Inductive call (F : Type) : Type :=
  | AddPoint (frame_n azim elev ra dec : F) (mag : option F)
  | Finish.
Arguments AddPoint {F} frame_n azim elev ra dec mag.
Arguments Finish {F}.

Definition do_call `{PyFloat F} (radians : F → F) (self : nat) (w : world F)
    (c : call F) : result (world F) :=
  match c with
  | AddPoint frame_n azim elev ra dec mag =>
      addPoint radians w self frame_n azim elev ra dec mag
  | Finish => finish w self
  end.

(** The frame numbers passed to [addPoint], in call order. *)
Definition frames {F} (calls : list (call F)) : list F :=
  omap (λ c, match c with AddPoint frame_n _ _ _ _ _ => Some frame_n | Finish => None end)
    calls.

(** What holds of the observation [self] once the frames [fs] were added. *)
Definition built `{PyFloat F} (w : world F) (self : nat) (rate : F) (fs : list F) : Prop :=
  ∃ o, deref w self = Ok o ∧ fps o = rate ∧ same_length o
       ∧ items (time_data o) = map (λ frame_n, f_div frame_n rate) fs.


(** A line of the site file that the loader skips: a comment, or a line
    that is empty once its line feed is removed. *)
Definition site_line_skipped (line : string) : bool :=
  match line with
  | EmptyString => false
  | String c _ =>
      bool_decide (c = "#"%char)
      || bool_decide (Str.remove_char LF line = EmptyString)
  end.

(** The key a line of the site file is stored under, if it is a record. *)
Definition site_line_id (line : string) : option StationId :=
  if site_line_skipped line then None
  else coerce_station_id <$> head (Str.split (Str.remove_char LF line)).

(** The key a line of the time-offset file is stored under. *)
Definition offset_line_id (line : string) : option StationId :=
  coerce_station_id <$> head (offset_fields line).

(** A line of the detection file as the loop body sees it, without line
    feeds and carriage returns. *)
Definition clean (line : string) : string :=
  Str.remove_char CR (Str.remove_char LF line).

(** The lines of a detection file, by what the loop does with them. *)
Definition is_blank (line : string) : bool := bool_decide (clean line = EmptyString).
Definition is_separator (line : string) : bool := Str.contains "-----" (clean line).

Definition count_separators (lines : list string) : nat :=
  length (filter (λ line, is_separator line = true) lines).

(** A regular detection file: every separator is followed by at least three
    lines that are neither blank nor separators (bin line, calibration line,
    meteor header) before the next separator or the end of the file. [need]
    is the number of such lines still due. *)
Fixpoint regular (need : nat) (lines : list string) : bool :=
  match lines with
  | [] => bool_decide (need = 0)
  | line :: lines =>
      if is_blank line then regular need lines
      else if is_separator line then bool_decide (need = 0) && regular 3 lines
      else regular (pred need) lines
  end.

(** The variables of the parser when [need] lines of a record head are due:
    the flags say which, the current meteor is the last object created, and
    the list holds the objects created before it, each once, in order. *)
Definition phase (need : nat) (st : locals) : Prop :=
  need ≤ 3
  ∧ bin_name st = bool_decide (need = 3)
  ∧ cal_name st = bool_decide (need = 2)
  ∧ meteor_header st = bool_decide (need = 1)
  ∧ current_meteor st
    = match length (objects (heap st)) with 0 => None | S k => Some k end
  ∧ meteor_list st
    = seq 0 (match need with
             | 0 => pred (length (objects (heap st)))
             | _ => length (objects (heap st))
             end).

(** The variables of the parser when the loop was left at a station that
    the catalog does not hold: the error was printed, every object created
    is listed, and the current meteor is still the last of them. *)
Definition stopped (st : locals) : Prop :=
  Exiting ∈ console (heap st)
  ∧ current_meteor st
    = match length (objects (heap st)) with 0 => None | S k => Some k end
  ∧ meteor_list st = seq 0 (length (objects (heap st))).

(** An observation after [finish]: its times and its four angle sequences
    are arrays. *)
Definition finished {F} (o : MeteorObservation F) : bool :=
  is_array (time_data o) && is_array (azim_data o) && is_array (elev_data o)
  && is_array (ra_data o) && is_array (dec_data o).

(** A store and a list of references into it, as the parser keeps them:
    every object has its sequences of one length, and every reference of the
    list points to a finished object. *)
Definition sound {F} (w : world F) (l : list nat) : Prop :=
  Forall same_length (objects w)
  ∧ ∀ m, m ∈ l → ∃ o, objects w !! m = Some o ∧ finished o = true.

(** A store in which every observation of the list [l] exists and has an
    array for its times. *)
Definition ready {F} (l : list nat) (w : world F) : Prop :=
  ∀ m, m ∈ l → ∃ o, deref w m = Ok o ∧ is_array (time_data o) = true.

(** The lines of a record head due after [line]. *)
Definition next_need (need : nat) (line : string) : nat :=
  if is_blank line then need else if is_separator line then 3 else pred need.

(** Separators come only where no line of a record head is due; the lines
    due after the last line. *)
Fixpoint orderly (need : nat) (lines : list string) : bool :=
  match lines with
  | [] => true
  | line :: lines =>
      (if is_blank line then true
       else if is_separator line then bool_decide (need = 0) else true)
      && orderly (next_need need line) lines
  end.

Definition final_need (need : nat) (lines : list string) : nat :=
  foldl next_need need lines.

(** The list with its last object twice: what is returned when the current
    meteor is saved again after it was listed. *)
Definition last_twice (n : nat) : list nat :=
  match n with 0 => [] | S k => seq 0 (S k) ++ [k] end.

(** The separators read so far, from the variables. *)
Definition separators_seen (need : nat) (st : locals) : nat :=
  length (objects (heap st)) + match need with 0 => 0 | _ => 1 end.

(** Two states of one observation that differ at most in its epoch, its
    times and its angles: same station, same position, same frame rate, same
    magnitudes, as many points. *)
Definition same_record {F} (o o' : MeteorObservation F) : Prop :=
  station_id o' = station_id o ∧ latitude o' = latitude o
  ∧ longitude o' = longitude o ∧ height o' = height o ∧ fps o' = fps o
  ∧ mag_data o' = mag_data o ∧ abs_mag_data o' = abs_mag_data o
  ∧ length (items (time_data o')) = length (items (time_data o)).

(** What a pass over the observations [l] may change between two stores:
    every object is still there and is the same record, the objects outside
    [l] are untouched, the console is as it was. *)
Definition pass_over {F} (l : list nat) (w w' : world F) : Prop :=
  (∀ m o, deref w m = Ok o → ∃ o', deref w' m = Ok o' ∧ same_record o o')
  ∧ (∀ m, m ∉ l → deref w' m = deref w m)
  ∧ console w' = console w.

(** ** Sample files *)

(** A line of a file: its text and the line feed. *)
Definition text_line (s : string) : string := s +:+ String LF EmptyString.

Definition separator : string :=
  "-------------------------------------------------------".

(** One record of a detection file: separator, bin line, calibration line,
    meteor header and a point. *)
Definition one_meteor : list string :=
  map text_line
    [separator;
     "FF_HR0001_20180614_212523_123_0000000.bin";
     "platepar_cmn2010.cal";
     "HR0001 0001 0001 0025.00 000.0 000.0 000.0 000.7 0226.4 0085.3";
     "0112.5 0340.17 0319.55 339.28 +68.35 355.74 +52.34 000755 2.5"].

(** The head of a record of a station the catalog does not hold. *)
Definition unknown_station_meteor : list string :=
  map text_line
    [separator;
     "FF_XX0009_20180614_212523_123_0000000.bin";
     "platepar_cmn2010.cal";
     "XX0009 0001 0001 0025.00 000.0 000.0 000.0 000.7 0226.4 0085.3"].

Definition catalog : gmap StationId (float * float * float) :=
  {[ StrId "HR0001" := (0.79, 0.24, 90000)%float ]}.

(** Stand-ins for the two functions the loaders take from outside, used
    where a statement is run on a sample: numpy's [radians] multiplies by
    [pi/180]; the Julian date is the one of 2018-06-14 21:25:23.123 UT
    whatever the arguments. *)
Definition np_radians (x : float) : float := (x * 0x1.1df46a2529d39p-6)%float.
Definition sample_date2JD (_ _ _ _ _ _ _ : Z) : result float :=
  Ok 2458284.3926287382%float.

(** A pickled trajectory of one station, and stand-ins for the solver and
    the pickle loader: a solver object is the list of the stations fed to
    it. *)
Definition sample_pickle : pickled float unit unit :=
  {| pt_jdt_ref := 2458284.3926287382%float; pt_max_toffset := Some 1%float;
     pt_meastype := 2;
     pt_observations :=
       [{| po_meas1 := NdArray [np_radians 355.74];
           po_meas2 := NdArray [np_radians 52.34];
           po_time_data := NdArray [0%float]; po_lat := 0.79%float;
           po_lon := 0.24%float; po_ele := 90000%float;
           po_station_id := StrId "HR0001"; po_excluded_time := None;
           po_ignore_list := () |}];
     pt_has_excluded_time := false; pt_save_results := true |}.

Definition sample_solver_new : result (list (infill float unit unit)) := Ok [].
Definition sample_infill (t : list (infill float unit unit))
    (a : infill float unit unit) : result (list (infill float unit unit)) :=
  Ok (t ++ [a]).

(** A finished observation with the given epoch and times, and stand-ins
    for the two coordinate transforms (they leave the angles as they are). *)
Definition sample_observation {F} (jd lat lon ht rate : F) (sid : StationId)
    (times angles : list F) : MeteorObservation F :=
  {| jdt_ref := jd; station_id := sid; latitude := lat; longitude := lon;
     height := ht; fps := rate; time_data := NdArray times;
     azim_data := NdArray angles; elev_data := NdArray angles;
     ra_data := NdArray angles; dec_data := NdArray angles;
     mag_data := map (λ _, None) times; abs_mag_data := [] |}.

Definition sample_precession {F} (_ : F) (_ ra dec : list F) : list F * list F :=
  (ra, dec).
Definition sample_altaz {F} (ra dec : list F) (_ _ _ : F) : list F * list F :=
  (ra, dec).



(** A site file with a comment and an empty line, a time-offset file that
    names one station twice, and a detection file body of two records. *)
Definition sample_sites : list string :=
  map text_line
    ["Camera sites"; "station lat lon(+W) height(km)"; "# first camera"; "";
     "000454 43.10 -81.30 0.2"; "HR0001 45.3 -13.9 0.09"].

Definition sample_offsets : list string :=
  map text_line
    ["Camera time offsets"; "station offset(s)";
     "000454 0.5"; "HR0001 -1.25"; "000454 0.75"].

Definition two_meteors : list string := one_meteor ++ one_meteor.

(** Two finished observations in binary64, of the stations ["HR0001"] and
    ["HR0002"]. *)
Definition sample_event_binary64 : world float :=
  {| objects :=
       [sample_observation 2458284.5 0.79 0.24 90000 25 (StrId "HR0001")
          [4.5; 4.54] [0.3; 0.31];
        sample_observation 2458284.5 0.8 0.25 120000 25 (StrId "HR0002")
          [2.58; 2.62] [1.2; 1.21]]%float;
     console := [] |}.

(** An observation being built, with one point. *)
Definition sample_building : MeteorObservation float :=
  {| jdt_ref := 2458284.5%float; station_id := StrId "HR0001";
     latitude := 0.79%float; longitude := 0.24%float;
     height := 90000%float; fps := 25%float;
     time_data := PyList [4.5%float]; azim_data := PyList [0.3%float];
     elev_data := PyList [0.3%float]; ra_data := PyList [0.3%float];
     dec_data := PyList [0.3%float]; mag_data := [Some 2.5%float];
     abs_mag_data := [] |}.

Definition sample_unfinished : world float :=
  {| objects := [sample_building]; console := [] |}.

(** The float of an integer literal, and stand-ins for [x % y] and
    [np.log10] (they return their first argument). *)
Definition float_of_int (z : Z) : float := float_of_decimal (z <? 0)%Z (Z.abs z) 0.
Definition sample_mod (x _ : float) : float := x.
Definition sample_log10 (x : float) : float := x.

(** The pickled trajectory of the sample, saved without a maximum time
    offset. *)
Definition sample_pickle_no_offset : pickled float unit unit :=
  {| pt_jdt_ref := pt_jdt_ref unit unit sample_pickle; pt_max_toffset := None;
     pt_meastype := pt_meastype unit unit sample_pickle;
     pt_observations := pt_observations unit unit sample_pickle;
     pt_has_excluded_time := false; pt_save_results := true |}.

(** * Properties *)

(** ** Files and tokens *)

Lemma skip_lines_app n (header f : list string) :
  length header = n → skip_lines n (header ++ f) = Ok f.
Proof.
  revert header; induction n as [|n IH]; intros [|h header] Hlen;
    simplify_eq/=; auto.
Qed.

Lemma skip_lines_ok n (f body : list string) :
  skip_lines n f = Ok body → n ≤ length f ∧ body = drop n f.
Proof.
  revert f; induction n as [|n IH]; intros [|h f] Hs; simplify_eq/=;
    try (split; [lia | done]).
  destruct (IH _ Hs); split; [lia | done].
Qed.

Lemma skip_lines_drop n (f : list string) :
  n ≤ length f → skip_lines n f = Ok (drop n f).
Proof.
  revert f; induction n as [|n IH]; intros [|h f] Hlen; simpl in *;
    try done; try lia.
  apply IH; lia.
Qed.

Lemma split_on_cons sep (t rest : string) :
  Str.has_char sep t = false →
  Str.split_on sep (t +:+ String sep rest) = t :: Str.split_on sep rest.
Proof.
  induction t as [|a t IH]; intros Hno.
  - change (EmptyString +:+ String sep rest) with (String sep rest).
    simpl.
    by rewrite Ascii.eqb_refl.
  - simpl in Hno. apply orb_false_elim in Hno as [Ha Ht].
    change (String a t +:+ String sep rest) with (String a (t +:+ String sep rest)).
    simpl. rewrite Ha, (IH Ht). done.
Qed.

Lemma split_on_token sep (t : string) :
  Str.has_char sep t = false → Str.split_on sep t = [t].
Proof.
  induction t as [|a t IH]; intros Hno; [done|].
  simpl in Hno. apply orb_false_elim in Hno as [Ha Ht].
  simpl. rewrite Ha, (IH Ht). done.
Qed.

(** Splitting what was joined gives the tokens back. *)
Lemma split_on_join sep (toks : list string) :
  toks ≠ [] → Forall (λ t, Str.has_char sep t = false) toks →
  Str.split_on sep (Str.join sep toks) = toks.
Proof.
  induction toks as [|t toks IH]; intros Hne Hall; [done|].
  apply Forall_cons in Hall as [Ht Hall].
  destruct toks as [|u toks].
  - simpl. by apply split_on_token.
  - change (Str.join sep (t :: u :: toks))
      with (t +:+ String sep (Str.join sep (u :: toks))).
    rewrite split_on_cons by done. f_equal. by apply IH.
Qed.

Section LoaderProperties.
Variable radians : float → float.
Variable date2JD : Z → Z → Z → Z → Z → Z → Z → result float.

(** ** The site file *)

(** C7. The site record ["1 43.10 -81.30 200.0"], after any two header lines
    and with or without its line feed, loads to the catalog with the one key
    [1], an integer, whose entry is latitude [radians(43.10)], longitude
    [radians(81.30)] (the sign of the file's value inverted) and height
    [200000] metres. *)
Theorem loadCameraSites_record (h1 h2 : string) :
  loadCameraSites radians [h1; h2; text_line "1 43.10 -81.30 200.0"]
  = Ok {[ IntId 1 := (radians 43.10, radians 81.30, 200000)%float ]}
  ∧ loadCameraSites radians [h1; h2; "1 43.10 -81.30 200.0"]
    = Ok {[ IntId 1 := (radians 43.10, radians 81.30, 200000)%float ]}.
Proof. split; vm_compute; reflexivity. Qed.

(** ** The bin line *)

(** C4. A six-token identifier (old layout, the date, time and milliseconds
    at tokens 2, 3 and 4) and a five-token identifier (new layout, at tokens
    1, 2 and 3) that carry the same date, time and millisecond tokens give
    the same reference Julian date: the same call of [date2JD], or the same
    failure before it. *)
Theorem bin_line_layouts_agree (a b c d e date time ms : string) :
  Forall (λ t, Str.has_char "_" t = false) [a; b; c; d; e; date; time; ms] →
  bin_line_jd date2JD (Str.join "_" [a; b; date; time; ms; c])
  = bin_line_jd date2JD (Str.join "_" [d; date; time; ms; e]).
Proof.
  intros Hall. unfold bin_line_jd.
  rewrite !split_on_join; [reflexivity | done | | done |].
  - decompose_Forall_hyps. repeat constructor; done.
  - decompose_Forall_hyps. repeat constructor; done.
Qed.

End LoaderProperties.

Lemma bin_line_layouts_agree_witness :
  bin_line_jd (λ _ _ _ _ _ _ ms, Ok (float_of_decimal false ms 0))
    "FF_HR0001_20180614_212523_123_0000000.bin"
  = bin_line_jd (λ _ _ _ _ _ _ ms, Ok (float_of_decimal false ms 0))
    "FF454_20180614_212523_123_0000000.bin".
Proof.
  apply (bin_line_layouts_agree _ "FF" "HR0001" "0000000.bin" "FF454"
           "0000000.bin" "20180614" "212523" "123").
  repeat constructor.
Defined.

Section ParserProperties.
Variable radians : float → float.
Variable date2JD : Z → Z → Z → Z → Z → Z → Z → result float.

(** ** The magnitude of a point line *)

Lemma read_mag_at_most_seven (line : list string) :
  length line ≤ 7 → read_mag line = Ok None.
Proof.
  intros Hlen. unfold read_mag.
  destruct (7 <? length line) eqn:E; [|done].
  apply Nat.ltb_lt in E. lia.
Qed.

(** With nine fields or more, the magnitude is the ninth one. *)
Lemma read_mag_ninth (line : list string) (mag : string) :
  line !! 8 = Some mag →
  read_mag line
  = if bool_decide (mag = "inf") then Ok None else x ← py_float mag; Ok (Some x).
Proof.
  intros Hmag. unfold read_mag, index.
  pose proof (lookup_lt_Some _ _ _ Hmag) as Hlen.
  destruct (7 <? length line) eqn:E; [|apply Nat.ltb_ge in E; lia].
  rewrite Hmag. done.
Qed.

(** C6. A point line of exactly eight fields passes the test
    [len(line) > 7], and the magnitude is then read from [line[8]], the
    ninth field: the read raises [IndexError] instead of taking the eighth
    field as the magnitude. *)
Theorem read_mag_eight_fields (line : list string) :
  length line = 8 → read_mag line = Raise IndexError.
Proof.
  intros Hlen. unfold read_mag, index. rewrite Hlen. simpl.
  rewrite lookup_ge_None_2 by lia. done.
Qed.

(** ** Time offsets in the meteor header *)

(** A station whose id stays a string, with an offset: the epoch moves by
    [offset/86400] days and the record is opened. *)
Lemma header_line_offset_applied stations offsets st line tok rate s dt jd lat lon ht :
  index (Str.split line) 0 = Ok tok → float_at (Str.split line) 3 = Ok rate →
  coerce_station_id tok = StrId s → offsets !! StrId s = Some dt →
  jdt_ref_var st = Some jd → stations !! StrId s = Some (lat, lon, ht) →
  header_line stations (Some offsets) st line
  = Ok (Continue,
        {| heap :=
             (new (print (heap st) (ApplyingTimeOffset s dt))
                (jd + dt / 86400)%float (StrId s) lat lon ht rate).1;
           meteor_list := meteor_list st;
           current_meteor := Some (length (objects (heap st)));
           bin_name := bin_name st; cal_name := cal_name st;
           meteor_header := meteor_header st;
           jdt_ref_var := Some (jd + dt / 86400)%float |}).
Proof.
  intros Htok Hrate Hid Hdt Hjd Hst. unfold header_line, read_jdt_ref.
  rewrite Htok, Hrate. simpl. rewrite Hid, Hdt. simpl. rewrite Hjd. simpl.
  rewrite Hst. done.
Qed.

(** A station without an offset: a message, and the epoch of the bin line. *)
Lemma header_line_offset_missing stations offsets st line tok rate jd lat lon ht :
  index (Str.split line) 0 = Ok tok → float_at (Str.split line) 3 = Ok rate →
  offsets !! coerce_station_id tok = None →
  jdt_ref_var st = Some jd → stations !! coerce_station_id tok = Some (lat, lon, ht) →
  header_line stations (Some offsets) st line
  = Ok (Continue,
        {| heap :=
             (new (print (heap st) TimeOffsetNotFound)
                jd (coerce_station_id tok) lat lon ht rate).1;
           meteor_list := meteor_list st;
           current_meteor := Some (length (objects (heap st)));
           bin_name := bin_name st; cal_name := cal_name st;
           meteor_header := meteor_header st;
           jdt_ref_var := Some jd |}).
Proof.
  intros Htok Hrate Hdt Hjd Hst. unfold header_line.
  rewrite Htok, Hrate. simpl. rewrite Hdt. simpl. rewrite Hst, Hjd. done.
Qed.

(** C5. A station whose id is coerced to an integer and is a key of the
    time-offset mapping: formatting the message with ['{:s}'] raises
    [ValueError] before the offset is applied, and the exception leaves the
    parser. *)
Theorem header_line_offset_int_station stations offsets st line tok rate n dt :
  index (Str.split line) 0 = Ok tok → float_at (Str.split line) 3 = Ok rate →
  coerce_station_id tok = IntId n → offsets !! IntId n = Some dt →
  header_line stations (Some offsets) st line = Raise ValueError.
Proof.
  intros Htok Hrate Hid Hdt. unfold header_line.
  rewrite Htok, Hrate. simpl. rewrite Hid, Hdt. done.
Qed.

(** ** Records and separators *)

(** Before the first separator nothing is in progress and no flag is set:
    a line that is no separator changes nothing. *)
Lemma detect_line_idle stations offsets (line : string) :
  Str.contains "-----" (Str.remove_char CR (Str.remove_char LF line)) = false →
  detect_line radians date2JD stations offsets start line = Ok (Continue, start).
Proof.
  intros Hsep. unfold detect_line. rewrite Hsep.
  by case_bool_decide.
Qed.

(** X1. No record is produced before the first separator. *)
Lemma no_record_before_first_separator stations offsets (header lines : list string) :
  length header = 11 →
  Forall (λ line,
    Str.contains "-----" (Str.remove_char CR (Str.remove_char LF line)) = false) lines →
  loadFTPDetectInfo radians date2JD (header ++ lines) stations offsets
  = Ok ({| objects := []; console := [] |}, []).
Proof.
  intros Hlen Hall. unfold loadFTPDetectInfo. rewrite skip_lines_app by done.
  simpl.
  assert (for_each_break (detect_line radians date2JD stations offsets) start lines
          = Ok start) as ->; [|done].
  induction Hall as [|line lines Hline _ IH]; [done|].
  simpl. rewrite detect_line_idle by done. simpl. apply IH.
Qed.

(** Runs the parser on a sample file whose bin lines all carry the date of
    the hypothesis [Hjd]. *)
Ltac run_parser Hjd :=
  unfold loadFTPDetectInfo; rewrite skip_lines_app by done;
  vm_compute; rewrite Hjd; vm_compute; reflexivity.

(** One object created and listed once: a record closed by the end of the
    file. *)
Lemma one_meteor_listed_once (header : list string) (jd : float) :
  length header = 11 →
  date2JD 2018 6 14 21 25 23 123 = Ok jd →
  (λ r, (length (objects r.1), r.2))
    <$> loadFTPDetectInfo radians date2JD (header ++ one_meteor) catalog None
  = Ok (1, [0]).
Proof.
  intros Hlen Hjd. run_parser Hjd.
Qed.

(** C2. A file whose last line is a separator: the separator saves the
    record, the end of the file saves it again, and the one object created
    is listed twice. *)
Theorem trailing_separator_lists_meteor_twice (header : list string) (jd : float) :
  length header = 11 →
  date2JD 2018 6 14 21 25 23 123 = Ok jd →
  (λ r, (length (objects r.1), r.2))
    <$> loadFTPDetectInfo radians date2JD
          (header ++ one_meteor ++ [text_line separator]) catalog None
  = Ok (1, [0; 0]).
Proof.
  intros Hlen Hjd. run_parser Hjd.
Qed.

(** C3. A second record whose station is not in the catalog: the loop is
    left, and the record saved at the separator is saved again after the
    loop. The list returned holds it twice, and the console the two lines of
    the error. *)
Theorem unknown_station_lists_meteor_twice (header : list string) (jd : float) :
  length header = 11 →
  date2JD 2018 6 14 21 25 23 123 = Ok jd →
  (λ r, (length (objects r.1), r.2, drop 1 (console r.1)))
    <$> loadFTPDetectInfo radians date2JD
          (header ++ one_meteor ++ unknown_station_meteor) catalog None
  = Ok (1, [0; 0], [NoStationInfo (StrId "XX0009"); Exiting]).
Proof.
  intros Hlen Hjd. run_parser Hjd.
Qed.

End ParserProperties.

Lemma read_mag_eight_fields_witness :
  read_mag (Str.split "0112.5 0340.17 0319.55 339.28 +68.35 355.74 +52.34 2.5")
  = Raise IndexError.
Proof. apply read_mag_eight_fields. reflexivity. Defined.

Lemma header_line_offset_int_station_witness :
  header_line {[ IntId 454 := (0.79, 0.24, 90000)%float ]}
    (Some {[ IntId 454 := 0.5%float ]})
    (set_jdt_ref start 2458284.3926287382%float)
    "000454 0001 0001 0025.00 000.0 000.0 000.0 000.7 0226.4 0085.3"
  = Raise ValueError.
Proof.
  apply (header_line_offset_int_station _ _ _ _ "000454" 25%float 454 0.5%float);
    reflexivity.
Defined.

Lemma trailing_separator_lists_meteor_twice_witness :
  (λ r, (length (objects r.1), r.2))
    <$> loadFTPDetectInfo np_radians sample_date2JD
          (replicate 11 (text_line "") ++ one_meteor ++ [text_line separator])
          catalog None
  = Ok (1, [0; 0]).
Proof.
  apply (trailing_separator_lists_meteor_twice np_radians sample_date2JD
           (replicate 11 (text_line "")) 2458284.3926287382%float);
    reflexivity.
Defined.

Lemma unknown_station_lists_meteor_twice_witness :
  (λ r, (length (objects r.1), r.2, drop 1 (console r.1)))
    <$> loadFTPDetectInfo np_radians sample_date2JD
          (replicate 11 (text_line "") ++ one_meteor ++ unknown_station_meteor)
          catalog None
  = Ok (1, [0; 0], [NoStationInfo (StrId "XX0009"); Exiting]).
Proof.
  apply (unknown_station_lists_meteor_twice np_radians sample_date2JD
           (replicate 11 (text_line "")) 2458284.3926287382%float);
    reflexivity.
Defined.

(** ** Loops *)

Lemma for_each_app {S A} (body : S → A → result S) (s : S) (l1 l2 : list A) :
  for_each body s (l1 ++ l2) = s' ← for_each body s l1; for_each body s' l2.
Proof.
  revert s; induction l1 as [|x l1 IH]; intros s; simpl; [done|].
  destruct (body s x); simpl; [apply IH | done].
Qed.

Lemma for_each_cons {S A} (body : S → A → result S) (s : S) (x : A) (l : list A) :
  for_each body s (x :: l) = s' ← body s x; for_each body s' l.
Proof. reflexivity. Qed.

(** A loop whose body cannot fail on the items it meets returns. *)
Lemma for_each_total {S A} (body : S → A → result S) (P : A → Prop) (l : list A) :
  (∀ s x, P x → is_ok (body s x) = true) → Forall P l →
  ∀ s, is_ok (for_each body s l) = true.
Proof.
  intros Hbody Hall. induction Hall as [|x l Hx _ IH]; intros s; simpl; [done|].
  specialize (Hbody s x Hx). destruct (body s x); [apply IH | done].
Qed.

(** ** The time-offset file *)

(** [float] fails with [ValueError] only. *)
Lemma py_float_error (s : string) (e : exn) : py_float s = Raise e → e = ValueError.
Proof.
  unfold py_float. repeat case_match; congruence.
Qed.

Lemma time_offset_line_ok offsets (line : string) :
  offset_line_ok line = true → is_ok (time_offset_line offsets line) = true.
Proof.
  unfold offset_line_ok, time_offset_line, float_at, index, offset_fields.
  destruct (Str.split (Str.remove_char LF line)) as [|t0 [|t1 ts]]; simpl; try done.
  destruct (py_float t1); done.
Qed.

Lemma time_offset_line_short offsets (line : string) :
  length (offset_fields line) < 2 → time_offset_line offsets line = Raise IndexError.
Proof.
  unfold time_offset_line, float_at, index, offset_fields.
  destruct (Str.split (Str.remove_char LF line)) as [|t0 [|t1 ts]]; simpl;
    try done; lia.
Qed.

Lemma time_offset_line_returns offsets (line : string) :
  is_ok (time_offset_line offsets line) = true → offset_line_ok line = true.
Proof.
  unfold offset_line_ok, time_offset_line, float_at, index, offset_fields.
  destruct (Str.split (Str.remove_char LF line)) as [|t0 [|t1 ts]]; simpl; try done.
  destruct (py_float t1); done.
Qed.

Lemma time_offset_lines_return (body : list string) offsets :
  is_ok (for_each time_offset_line offsets body) = true →
  Forall (λ l, offset_line_ok l = true) body.
Proof.
  revert offsets; induction body as [|l body IH]; intros offsets Hok; [done|].
  simpl in Hok.
  destruct (time_offset_line offsets l) as [offsets'|e] eqn:E; [|done].
  constructor; [|by eapply IH].
  apply (time_offset_line_returns offsets). by rewrite E.
Qed.

(** C10. [loadCameraTimeOffsets] skips no line after the two header lines.
    It returns a mapping exactly when the file has its two header lines and
    every line after them has a second field that parses as a float; and it
    fails with [IndexError] at a line of fewer than two fields (a blank line,
    a lone ['#...'] token) whenever the lines before it are well formed. *)
Theorem loadCameraTimeOffsets_outcome (f : list string) :
  (is_ok (loadCameraTimeOffsets f) = true
   ↔ 2 ≤ length f ∧ Forall (λ l, offset_line_ok l = true) (drop 2 f))
  ∧ (∀ good line rest,
       drop 2 f = good ++ line :: rest →
       Forall (λ l, offset_line_ok l = true) good →
       length (offset_fields line) < 2 →
       loadCameraTimeOffsets f = Raise IndexError).
Proof.
  unfold loadCameraTimeOffsets. split; [split|].
  - destruct (skip_lines 2 f) as [body|e] eqn:Hskip; [|done].
    apply skip_lines_ok in Hskip as [Hlen ->]. simpl.
    intros Hok. split; [done|]. by eapply time_offset_lines_return.
  - intros [Hlen Hall]. rewrite skip_lines_drop by done. simpl.
    by apply (for_each_total _ (λ l, offset_line_ok l = true));
      [intros; apply time_offset_line_ok|].
  - intros good line rest Hbody Hgood Hshort.
    assert (2 ≤ length f) as Hlen.
    { destruct (decide (2 ≤ length f)) as [|Hn]; [done|].
      rewrite drop_ge in Hbody by lia. by destruct good. }
    rewrite skip_lines_drop by done. simpl. rewrite Hbody, for_each_app.
    pose proof (for_each_total time_offset_line _ good
      (λ s x Hx, time_offset_line_ok s x Hx) Hgood ∅) as Hok.
    destruct (for_each time_offset_line ∅ good) as [offsets|e]; [|done].
    simpl. by rewrite time_offset_line_short.
Qed.

Lemma loadCameraTimeOffsets_outcome_witness :
  loadCameraTimeOffsets
    [text_line "Camera time offsets"; text_line "station offset";
     text_line "000454 0.5"; text_line ""; text_line "HR0001 -1.25"]
  = Raise IndexError.
Proof.
  apply (proj2 (loadCameraTimeOffsets_outcome _) [text_line "000454 0.5"]
           (text_line "") [text_line "HR0001 -1.25"]).
  - reflexivity.
  - repeat constructor.
  - vm_compute. lia.
Defined.

(** C10, as stated, fails: a blank line after a line whose second field is
    not a number. The load fails at the earlier line, with [ValueError]. *)
Lemma blank_line_after_bad_number :
  ¬ (∀ (f : list string) (line : string),
       line ∈ drop 2 f → length (offset_fields line) < 2 →
       loadCameraTimeOffsets f = Raise IndexError).
Proof.
  intros Hclaim.
  specialize (Hclaim
    [text_line "Camera time offsets"; text_line "station offset";
     text_line "000454 n/a"; text_line ""] (text_line "")).
  assert (loadCameraTimeOffsets
    [text_line "Camera time offsets"; text_line "station offset";
     text_line "000454 n/a"; text_line ""] = Raise ValueError) as Hrun
    by (vm_compute; reflexivity).
  rewrite Hrun in Hclaim.
  discriminate Hclaim.
  - simpl. set_solver.
  - vm_compute. lia.
Qed.

(** ** The observation container *)

Section ContainerProperties.
Context {F : Type} `{PyFloat F}.
Variable radians : F → F.

Lemma deref_assign (w : world F) (r : nat) (o o' : MeteorObservation F) :
  deref w r = Ok o → deref (assign w r o') r = Ok o'.
Proof.
  unfold deref, assign; simpl. intros Hr.
  destruct (objects w !! r) eqn:E; [|done].
  rewrite list_lookup_insert_eq; [done | by eapply lookup_lt_Some].
Qed.

Lemma deref_assign_ne (w : world F) (r r' : nat) (o' : MeteorObservation F) :
  r ≠ r' → deref (assign w r o') r' = deref w r'.
Proof.
  intros Hne. unfold deref, assign; simpl. by rewrite list_lookup_insert_ne.
Qed.

Lemma deref_new (w : world F) jd sid lat lon ht rate :
  let '(w', m) := new w jd sid lat lon ht rate in
  deref w' m = Ok (init jd sid lat lon ht rate).
Proof.
  unfold new, deref; simpl.
  rewrite lookup_app_r, Nat.sub_diag by lia. done.
Qed.

Lemma built_new (w : world F) jd sid lat lon ht rate :
  built (new w jd sid lat lon ht rate).1 (new w jd sid lat lon ht rate).2 rate [].
Proof.
  exists (init jd sid lat lon ht rate). split; [apply (deref_new w)|].
  repeat split; done.
Qed.

Lemma built_addPoint w self rate fs frame_n azim elev ra dec mag w' :
  built w self rate fs →
  addPoint radians w self frame_n azim elev ra dec mag = Ok w' →
  built w' self rate (fs ++ [frame_n]).
Proof.
  intros (o & Ho & Hrate & Hlen & Htime). unfold addPoint, truediv.
  rewrite Ho; simpl. rewrite Hrate.
  destruct (f_is_zero rate); [done|]. simpl.
  destruct Hlen as (Haz & Hel & Hra & Hdec & Hmag).
  destruct o as [jd sid lat lon ht rate' [t|t] [az|az] [el|el] [r|r] [d|d] mags amags];
    simpl in *; try done.
  intros [= <-].
  eexists; split; [eapply deref_assign; unfold deref, print; simpl|].
  - unfold deref in Ho. destruct (objects w !! self); done.
  - split; [done|]. split.
    + unfold same_length; simpl. rewrite !length_app; simpl.
      repeat split; congruence.
    + simpl. by rewrite map_app, Htime.
Qed.

Lemma built_finish w self rate fs w' :
  built w self rate fs → finish w self = Ok w' → built w' self rate fs.
Proof.
  intros (o & Ho & Hrate & Hlen & Htime). unfold finish.
  rewrite Ho; simpl. intros [= <-].
  eexists; split; [by eapply deref_assign|].
  destruct Hlen as (Haz & Hel & Hra & Hdec & Hmag).
  destruct o; simpl in *. repeat split; simpl; congruence.
Qed.

Lemma built_calls self rate (calls : list (call F)) :
  ∀ w fs w', built w self rate fs →
    for_each (do_call radians self) w calls = Ok w' →
    built w' self rate (fs ++ frames calls).
Proof.
  induction calls as [|c calls IH]; intros w fs w' Hb Hrun; simpl in *.
  - simplify_eq. by rewrite app_nil_r.
  - destruct (do_call radians self w c) as [w1|e] eqn:Hc; [|done].
    simpl in Hrun. destruct c as [frame_n azim elev ra dec mag|]; simpl in *.
    + rewrite cons_middle, app_assoc. eapply IH; [|done].
      by eapply built_addPoint.
    + eapply IH; [|done]. by eapply built_finish.
Qed.

(** C8. An observation is constructed and receives any calls of [addPoint]
    and [finish] that return: the six per-point sequences have one length,
    and [time_data] holds the quotients [frame_n/fps] of the frames in the
    order of the calls (so it is non-decreasing exactly when these are). *)
Theorem observation_sequences (w : world F) jd sid lat lon ht rate
    (calls : list (call F)) (w' : world F) :
  for_each (do_call radians (new w jd sid lat lon ht rate).2)
    (new w jd sid lat lon ht rate).1 calls = Ok w' →
  ∃ o, deref w' (new w jd sid lat lon ht rate).2 = Ok o
       ∧ same_length o
       ∧ items (time_data o) = map (λ frame_n, f_div frame_n rate) (frames calls).
Proof.
  intros Hrun.
  destruct (built_calls _ rate calls _ [] w' (built_new w jd sid lat lon ht rate) Hrun)
    as (o & Ho & _ & Hlen & Htime).
  by exists o.
Qed.

End ContainerProperties.

Lemma observation_sequences_witness :
  ∃ o, deref
         {| objects :=
              [{| jdt_ref := 2458284.3926287382%float; station_id := StrId "HR0001";
                  latitude := 0.79%float; longitude := 0.24%float;
                  height := 90000%float; fps := 25%float;
                  time_data := NdArray [4.5; 4.54]%float;
                  azim_data := NdArray [np_radians 355.74; np_radians 355.9];
                  elev_data := NdArray [np_radians 52.34; np_radians 52.1];
                  ra_data := NdArray [np_radians 339.28; np_radians 339.5];
                  dec_data := NdArray [np_radians 68.35; np_radians 68.2];
                  mag_data := [Some 2.5%float; None]; abs_mag_data := [] |}];
            console := [PointTime 4.5%float; PointTime 4.54%float] |} 0 = Ok o
       ∧ same_length o
       ∧ items (time_data o)
         = map (λ frame_n, f_div frame_n 25%float) [112.5; 113.5]%float.
Proof.
  apply (observation_sequences np_radians {| objects := []; console := [] |}
           2458284.3926287382%float (StrId "HR0001") 0.79%float 0.24%float
           90000%float 25%float
           [AddPoint 112.5 355.74 52.34 339.28 68.35 (Some 2.5);
            AddPoint 113.5 355.9 52.1 339.5 68.2 None; Finish]%float).
  vm_compute. reflexivity.
Defined.

(** C8, as stated, fails: [addPoint] keeps the order of the calls, not the
    order of the times. Frame 113.5, then frame 112.5, at 25 frames a
    second. *)
Lemma time_data_in_call_order :
  ¬ (∀ (radians : float → float) (w : world float) jd sid lat lon ht rate
       (calls : list (call float)) (w' : world float),
       for_each (do_call radians (new w jd sid lat lon ht rate).2)
         (new w jd sid lat lon ht rate).1 calls = Ok w' →
       ∃ o, deref w' (new w jd sid lat lon ht rate).2 = Ok o
            ∧ same_length o ∧ non_decreasing (items (time_data o))).
Proof.
  intros Hclaim.
  destruct (Hclaim np_radians {| objects := []; console := [] |}
              2458284.3926287382%float (StrId "HR0001") 0.79%float 0.24%float
              90000%float 25%float
              [AddPoint 113.5 355.9 52.1 339.5 68.2 None;
               AddPoint 112.5 355.74 52.34 339.28 68.35 (Some 2.5)]%float
              _ eq_refl) as (o & Ho & _ & Hsorted).
  vm_compute in Ho. injection Ho as <-.
  specialize (Hsorted 0 1 _ _ (Nat.le_succ_diag_r 0) eq_refl eq_refl).
  vm_compute in Hsorted. discriminate Hsorted.
Qed.

(** ** The solver adapters *)

Section AdapterProperties.
Context {F : Type} `{PyFloat F}.
Variable J2000_JD_days : F.
Variable equatorialCoordPrecession_vect : F → list F → list F → list F → list F * list F.
Variable raDec2AltAz_vect : list F → list F → F → F → F → list F * list F.
Variables traj options excluded ignored : Type.
Variable Trajectory : F → string → Z → kwargs F options → result traj.
Variable GuralTrajectory : nat → F → Z → option (option F) → Z → string → result traj.
Variable infillTrajectory : traj → infill F excluded ignored → result traj.
Variable run : traj → result traj.
Variable loadPickle : string → string → result (pickled F excluded ignored).
Variable savePlots : pickled F excluded ignored → result unit.

(** X2. [solveTrajectoryCAMS] with a selector it does not know, on observations
    that normalise: the message, and [None]. *)
Lemma solveTrajectoryCAMS_unknown_solver (w w1 w2 : world F) (meteor_list l : list nat)
    (jd : F) (output_dir solver : string) (kw : kwargs F options) :
  solver ≠ "original" → solver ≠ "gural" →
  prepareObservations J2000_JD_days equatorialCoordPrecession_vect raDec2AltAz_vect
    w meteor_list = Ok (w1, Some (jd, l)) →
  for_each (λ w meteor, m ← deref w meteor; Ok (print w (Printed m))) w1 l = Ok w2 →
  solveTrajectoryCAMS J2000_JD_days equatorialCoordPrecession_vect raDec2AltAz_vect
    traj options excluded ignored Trajectory GuralTrajectory infillTrajectory run
    w meteor_list output_dir solver kw
  = Ok (print w2 (NoSuchSolver solver), None).
Proof.
  intros Ho Hg Hprep Hprint. unfold solveTrajectoryCAMS.
  rewrite Hprep. simpl. rewrite Hprint. simpl.
  rewrite !bool_decide_eq_false_2 by done. done.
Qed.

(** C9. [solveTrajectoryPickle] with a selector it does not know, on a
    pickle that loads: the message is printed, no solver is bound to [traj],
    and the call ends in an exception, [UnboundLocalError] at [traj.run()]
    when the trajectory is recomputed. *)
Theorem solveTrajectoryPickle_unknown_solver (dir_path file_name : string)
    (only_plot : bool) (solver : string) (kw : kwargs F options)
    (traj_p : pickled F excluded ignored) :
  solver ≠ "original" → solver ≠ "gural" →
  loadPickle dir_path file_name = Ok traj_p →
  let outcome :=
    solveTrajectoryPickle traj options excluded ignored Trajectory GuralTrajectory
      infillTrajectory run loadPickle savePlots dir_path file_name only_plot solver kw in
  outcome.1 = [UnrecognizedSolver solver]
  ∧ is_ok outcome.2 = false
  ∧ (only_plot = false → outcome.2 = Raise UnboundLocalError).
Proof.
  intros Ho Hg Hload. unfold solveTrajectoryPickle. rewrite Hload.
  rewrite !bool_decide_eq_false_2 by done. simpl.
  split; [done|]. destruct only_plot; simpl.
  - split; [|done]. by destruct (savePlots _).
  - done.
Qed.

End AdapterProperties.

Lemma solveTrajectoryPickle_unknown_solver_witness :
  let outcome :=
    solveTrajectoryPickle (list (infill float unit unit)) unit unit unit
      (λ _ _ _ _, sample_solver_new) (λ _ _ _ _ _ _, sample_solver_new)
      sample_infill Ok (λ _ _, Ok sample_pickle) (λ _, Ok ())
      "/data/meteors" "20180614_212523_trajectory.pickle" false "gural0"
      {| kw_max_toffset := None; kw_others := () |} in
  outcome.1 = [UnrecognizedSolver "gural0"]
  ∧ is_ok outcome.2 = false
  ∧ (false = false → outcome.2 = Raise UnboundLocalError).
Proof.
  apply (solveTrajectoryPickle_unknown_solver (list (infill float unit unit))
           unit unit unit (λ _ _ _ _, sample_solver_new)
           (λ _ _ _ _ _ _, sample_solver_new) sample_infill Ok
           (λ _ _, Ok sample_pickle) (λ _, Ok ())
           "/data/meteors" "20180614_212523_trajectory.pickle" false "gural0"
           {| kw_max_toffset := None; kw_others := () |} sample_pickle);
    done.
Defined.

(** ** Normalisation: what the two loops leave alone *)

Section NormaliserFrame.
Context {F : Type} `{PyFloat F}.

(** The time correction touches the meteors of the list only. *)
Lemma correct_times_frame (ref : nat) (l : list nat) :
  ∀ (i : nat) (w w' : world F),
    for_each (correct_time 0 ref) w (enumerate i l) = Ok w' →
    ∀ m, m ∉ l → deref w' m = deref w m.
Proof.
  induction l as [|m0 l IH]; intros i w w' Hrun m Hm.
  - by injection Hrun as <-.
  - change (enumerate i (m0 :: l)) with ((i, m0) :: enumerate (S i) l) in Hrun.
    rewrite for_each_cons in Hrun.
    destruct (correct_time 0 ref w (i, m0)) as [w1|e] eqn:Hstep; [|done].
    simpl in Hrun. rewrite (IH _ _ _ Hrun m) by set_solver.
    unfold correct_time in Hstep. case_bool_decide; [|by injection Hstep as <-].
    destruct (deref w m0) as [o|]; [|done]. simpl in Hstep.
    destruct (deref w ref) as [r|]; [|done]. simpl in Hstep.
    destruct (inplace _ _ _); [|done]. simpl in Hstep. injection Hstep as <-.
    apply deref_assign_ne. set_solver.
Qed.

Variable J2000_JD_days : F.
Variable equatorialCoordPrecession_vect : F → list F → list F → list F → list F * list F.
Variable raDec2AltAz_vect : list F → list F → F → F → F → list F * list F.

(** Precession rewrites the angles of a meteor and nothing else. *)
Lemma precess_spec (jd : F) (w : world F) (m : nat) (o : MeteorObservation F) :
  deref w m = Ok o →
  ∃ o', precess J2000_JD_days equatorialCoordPrecession_vect raDec2AltAz_vect jd w m
        = Ok (assign w m o')
        ∧ jdt_ref o' = jdt_ref o ∧ time_data o' = time_data o.
Proof.
  intros Ho. unfold precess. rewrite Ho. simpl.
  destruct (equatorialCoordPrecession_vect _ _ _ _) as [ra_prec dec_prec].
  destruct (raDec2AltAz_vect _ _ _ _ _) as [azim elev].
  eexists. split; [done|]. done.
Qed.


(** The same, read off a run of the loop that returned. *)
Lemma precess_frame (jd : F) (l : list nat) :
  ∀ w w' : world F,
    for_each (precess J2000_JD_days equatorialCoordPrecession_vect
                raDec2AltAz_vect jd) w l = Ok w' →
    ∀ m o, deref w m = Ok o →
      ∃ o', deref w' m = Ok o' ∧ jdt_ref o' = jdt_ref o ∧ time_data o' = time_data o.
Proof.
  induction l as [|m0 l IH]; intros w w' Hrun m o Ho.
  - injection Hrun as <-. by exists o.
  - rewrite for_each_cons in Hrun.
    destruct (deref w m0) as [o0|e] eqn:Ho0.
    2:{ unfold precess in Hrun. by rewrite Ho0 in Hrun. }
    destruct (precess_spec jd w m0 o0 Ho0) as (o0' & Hstep & Hj & Ht).
    rewrite Hstep in Hrun. simpl in Hrun.
    assert (∃ o1, deref (assign w m0 o0') m = Ok o1 ∧ jdt_ref o1 = jdt_ref o
                  ∧ time_data o1 = time_data o) as (o1 & Ho1 & Hj1 & Ht1).
    { destruct (decide (m0 = m)) as [<-|Hne].
      - exists o0'. rewrite (deref_assign w m0 o0 o0' Ho0).
        rewrite Ho0 in Ho. injection Ho as <-. done.
      - exists o. by rewrite deref_assign_ne. }
    destruct (IH _ _ Hrun m o1 Ho1) as (o2 & Ho2 & Hj2 & Ht2).
    exists o2. split; [done|]. split; congruence.
Qed.

End NormaliserFrame.

(** ** Normalisation, in exact arithmetic *)

Section NormaliserProperties.
Variable J2000_JD_days : R.
Variable equatorialCoordPrecession_vect : R → list R → list R → list R → list R * list R.
Variable raDec2AltAz_vect : list R → list R → R → R → R → list R * list R.








End NormaliserProperties.



(** ** Normalisation, in binary64 *)

(** A finite float minus itself is [+0]. *)
Lemma binary64_sub_diag (x : float) :
  is_finite x = true → (x - x)%float = 0%float.
Proof.
  intros Hfin. apply FloatAxioms.Prim2SF_inj. rewrite FloatAxioms.sub_spec.
  unfold is_finite, is_nan, is_infinity in Hfin.
  rewrite !FloatAxioms.eqb_spec, FloatAxioms.abs_spec in Hfin.
  destruct (Prim2SF x) as [s|s| |s m e] eqn:E.
  - destruct s; reflexivity.
  - destruct s; discriminate Hfin.
  - discriminate Hfin.
  - unfold SF64sub, SFsub. rewrite Z.sub_diag. reflexivity.
Qed.

(** X3. In the floats the interpreter runs, when [prepareObservations] returns
    and the reference observation is listed once, its first time is [+0]
    exactly, provided it was finite. *)
Lemma prepareObservations_first_time_binary64 J2000 precession altaz
    (w w' : world float) (ref : nat) (rest : list nat) (prepared : option (float * list nat))
    (r0 : MeteorObservation float) (t0 : float) (ts : list float) :
  prepareObservations J2000 precession altaz w (ref :: rest) = Ok (w', prepared) →
  ref ∉ rest → deref w ref = Ok r0 → time_data r0 = NdArray (t0 :: ts) →
  is_finite t0 = true →
  ∃ r ts', deref w' ref = Ok r ∧ items (time_data r) = 0%float :: ts'.
Proof.
  intros Hrun Hfresh Hr0 Ht0 Hfin. unfold prepareObservations in Hrun.
  simpl in Hrun. rewrite Hr0 in Hrun. simpl in Hrun. rewrite Ht0 in Hrun.
  simpl in Hrun.
  match type of Hrun with
  | context [for_each (correct_time 0 ref) ?w1 _] => set (w1' := w1) in *
  end.
  destruct (for_each (correct_time 0 ref) w1' (enumerate 1 rest)) as [w2|e] eqn:Hloop;
    [|done].
  simpl in Hrun.
  pose proof (correct_times_frame ref rest 1 w1' w2 Hloop ref Hfresh) as Hsame.
  unfold w1' in Hsame. rewrite (deref_assign w ref r0 _ Hr0) in Hsame.
  rewrite Hsame in Hrun. simpl in Hrun.
  match type of Hrun with
  | context [precess ?J ?p ?a ?jd w2 ref ≫= ?k] =>
      change (precess J p a jd w2 ref ≫= k)
        with (for_each (precess J p a jd) w2 (ref :: rest)) in Hrun
  end.
  match type of Hrun with
  | context [for_each ?f w2 (ref :: rest)] =>
      destruct (for_each f w2 (ref :: rest)) as [w3|e] eqn:Hprec; [|done]
  end.
  simpl in Hrun. injection Hrun as <- _.
  destruct (precess_frame _ _ _ _ _ _ _ Hprec ref _ Hsame) as (r3 & Hr3 & _ & Ht3).
  exists r3. eexists. split; [done|]. rewrite Ht3. simpl.
  rewrite binary64_sub_diag by done. reflexivity.
Qed.

(** * Further properties *)

Set Warnings "-clear-no-such-hyp".

(** ** Loops *)

Lemma skip_lines_short n (f : list string) :
  length f < n → skip_lines n f = Raise StopIteration.
Proof.
  revert f; induction n as [|n IH]; intros [|h f] Hlen; simpl in *;
    try done; try lia.
  apply IH; lia.
Qed.

(** Items on which the body does nothing can be left out. *)
Lemma for_each_filter {S A} (body : S → A → result S) (P : A → Prop)
    `{∀ x, Decision (P x)} (l : list A) :
  (∀ s x, ¬ P x → body s x = Ok s) →
  ∀ s, for_each body s l = for_each body s (filter P l).
Proof.
  intros Hskip. induction l as [|x l IH]; intros s; [done|].
  rewrite filter_cons. destruct (decide (P x)) as [Hx|Hx]; simpl.
  - destruct (body s x); simpl; [apply IH | done].
  - rewrite (Hskip s x Hx). simpl. apply IH.
Qed.

Lemma for_each_break_filter {S A} (body : S → A → result (flow * S)) (P : A → Prop)
    `{∀ x, Decision (P x)} (l : list A) :
  (∀ s x, ¬ P x → body s x = Ok (Continue, s)) →
  ∀ s, for_each_break body s l = for_each_break body s (filter P l).
Proof.
  intros Hskip. induction l as [|x l IH]; intros s; [done|].
  rewrite filter_cons. destruct (decide (P x)) as [Hx|Hx]; simpl.
  - destruct (body s x) as [[[] s']|]; simpl; [apply IH | done | done].
  - rewrite (Hskip s x Hx). simpl. apply IH.
Qed.

Lemma for_each_break_ext {S A B} (body : S → B → result (flow * S)) (g : A → B)
    (body' : S → A → result (flow * S)) (l : list A) :
  (∀ s x, body' s x = body s (g x)) →
  ∀ s, for_each_break body' s l = for_each_break body s (map g l).
Proof.
  intros Hext. induction l as [|x l IH]; intros s; [done|].
  simpl. rewrite Hext. destruct (body s (g x)) as [[[] s']|]; simpl; auto.
Qed.

(** ** Files shorter than their header *)

Section ShortFiles.
Variable radians : float → float.
Variable date2JD : Z → Z → Z → Z → Z → Z → Z → result float.

(** X4. A file that ends inside its header (two lines for the two station
    files, eleven for the detection file) is not an empty result: [next]
    raises [StopIteration], and it leaves the loader. *)
Theorem loaders_short_file (f : list string) stations offsets :
  (length f < 2 →
     loadCameraTimeOffsets f = Raise StopIteration
     ∧ loadCameraSites radians f = Raise StopIteration)
  ∧ (length f < 11 →
       loadFTPDetectInfo radians date2JD f stations offsets = Raise StopIteration).
Proof.
  split; intros Hlen.
  - unfold loadCameraTimeOffsets, loadCameraSites.
    by rewrite skip_lines_short.
  - unfold loadFTPDetectInfo. by rewrite skip_lines_short.
Qed.

End ShortFiles.

Lemma loaders_short_file_witness :
  loadCameraTimeOffsets [text_line "Camera time offsets"] = Raise StopIteration
  ∧ loadCameraSites np_radians [text_line "Camera time offsets"] = Raise StopIteration.
Proof.
  apply (proj1 (loaders_short_file np_radians sample_date2JD
                  [text_line "Camera time offsets"] ∅ None)).
  simpl. lia.
Defined.

(** ** The site file *)

Section SiteFile.
Variable radians : float → float.

Lemma camera_site_line_skipped stations (line : string) :
  site_line_skipped line = true → camera_site_line radians stations line = Ok stations.
Proof.
  unfold site_line_skipped, camera_site_line. destruct line as [|c line]; [done|].
  simpl. intros [Hc|He]%orb_true_iff.
  - by rewrite Hc.
  - destruct (bool_decide (c = "#"%char)); [done|]. by rewrite He.
Qed.

(** X5. Comment lines and empty lines of the site file carry nothing: the
    load gives the same result, or the same failure, with them left out. *)
Theorem loadCameraSites_skips (f : list string) :
  loadCameraSites radians f
  = loadCameraSites radians
      (take 2 f ++ filter (λ line, site_line_skipped line = false) (drop 2 f)).
Proof.
  unfold loadCameraSites.
  destruct (decide (length f < 2)) as [Hshort|Hlong].
  - rewrite drop_ge, take_ge, app_nil_r by lia. done.
  - rewrite <- (take_drop 2 f) at 1.
    rewrite !skip_lines_app by (rewrite length_take; lia). simpl.
    apply for_each_filter. intros s line Hline.
    apply camera_site_line_skipped. by destruct (site_line_skipped line).
Qed.

(** What a line that loads does to the catalog. *)
Lemma camera_site_line_effect stations stations' (line : string) :
  camera_site_line radians stations line = Ok stations' →
  match site_line_id line with
  | None => stations' = stations
  | Some id => ∃ entry, stations' = <[id := entry]> stations
  end.
Proof.
  unfold site_line_id. destruct (site_line_skipped line) eqn:Hskip.
  - rewrite camera_site_line_skipped by done. congruence.
  - unfold camera_site_line, site_line_skipped in *.
    destruct line as [|c line]; [done|]. simpl in *.
    apply orb_false_iff in Hskip as [Hc He]. rewrite Hc, He.
    destruct (Str.split _) as [|t0 [|t1 [|t2 [|t3 ts]]]]; simpl; try done.
    destruct (py_float t1); [|done]. destruct (py_float t2); [|done].
    destruct (py_float t3); [|done]. simpl. intros [= <-]. eauto.
Qed.

Lemma camera_site_lines_dom (body : list string) :
  ∀ stations stations',
    for_each (camera_site_line radians) stations body = Ok stations' →
    dom stations' = dom stations ∪ list_to_set (omap site_line_id body).
Proof.
  induction body as [|line body IH]; intros stations stations' Hrun.
  - injection Hrun as <-. set_solver.
  - rewrite for_each_cons in Hrun.
    destruct (camera_site_line radians stations line) as [s1|] eqn:Hline; [|done].
    simpl in Hrun. rewrite (IH _ _ Hrun).
    apply camera_site_line_effect in Hline. simpl.
    destruct (site_line_id line) as [id|].
    + destruct Hline as [entry ->]. rewrite dom_insert_L. set_solver.
    + subst. done.
Qed.

(** X6. The keys of the catalog that [loadCameraSites] returns are the
    station ids of the record lines of the file, each coerced as the other
    readers coerce it: nothing else, and none is lost. *)
Theorem loadCameraSites_keys (f : list string)
    (stations : gmap StationId (float * float * float)) :
  loadCameraSites radians f = Ok stations →
  dom stations = list_to_set (omap site_line_id (drop 2 f)).
Proof.
  unfold loadCameraSites. intros Hrun.
  destruct (skip_lines 2 f) as [body|] eqn:Hskip; [|done].
  apply skip_lines_ok in Hskip as [_ ->]. simpl in Hrun.
  rewrite (camera_site_lines_dom _ _ _ Hrun). set_solver.
Qed.


End SiteFile.

(** ** The time-offset file *)

Lemma time_offset_line_effect offsets offsets' (line : string) :
  time_offset_line offsets line = Ok offsets' →
  ∃ tok val rest x,
    offset_fields line = tok :: val :: rest ∧ py_float val = Ok x
    ∧ offsets' = <[coerce_station_id tok := x]> offsets.
Proof.
  unfold time_offset_line, float_at, index, offset_fields.
  destruct (Str.split (Str.remove_char LF line)) as [|tok [|val rest]]; simpl;
    try done.
  destruct (py_float val) as [x|] eqn:Hval; [|done]. simpl.
  intros [= <-]. by exists tok, val, rest, x.
Qed.

Lemma time_offset_lines_other (id : StationId) (post : list string) :
  ∀ offsets offsets',
    for_each time_offset_line offsets post = Ok offsets' →
    Forall (λ line, offset_line_id line ≠ Some id) post →
    offsets' !! id = offsets !! id.
Proof.
  induction post as [|line post IH]; intros offsets offsets' Hrun Hall.
  - by injection Hrun as <-.
  - rewrite for_each_cons in Hrun. apply Forall_cons in Hall as [Hline Hall].
    destruct (time_offset_line offsets line) as [o1|] eqn:Hstep; [|done].
    simpl in Hrun. rewrite (IH _ _ Hrun Hall).
    apply time_offset_line_effect in Hstep as (tok & val & rest & x & Hf & _ & ->).
    apply lookup_insert_ne. intros <-. apply Hline.
    unfold offset_line_id. by rewrite Hf.
Qed.

(** X8. When a station has several lines in the time-offset file, the last
    one gives its offset: the mapping holds, under the coerced id, the float
    of the second field of the last line of that station. *)
Theorem loadCameraTimeOffsets_last_line (f pre post : list string) (line : string)
    (offsets : gmap StationId float) (tok val : string) (rest : list string) (x : float) :
  loadCameraTimeOffsets f = Ok offsets →
  drop 2 f = pre ++ line :: post →
  offset_fields line = tok :: val :: rest → py_float val = Ok x →
  Forall (λ l, offset_line_id l ≠ Some (coerce_station_id tok)) post →
  offsets !! coerce_station_id tok = Some x.
Proof.
  unfold loadCameraTimeOffsets. intros Hrun Hbody Hfields Hval Hpost.
  destruct (skip_lines 2 f) as [body|] eqn:Hskip; [|done].
  apply skip_lines_ok in Hskip as [_ ->]. simpl in Hrun.
  rewrite Hbody, for_each_app in Hrun.
  destruct (for_each time_offset_line ∅ pre) as [o1|]; [|done].
  change (for_each time_offset_line o1 (line :: post) = Ok offsets) in Hrun.
  rewrite for_each_cons in Hrun.
  destruct (time_offset_line o1 line) as [o2|] eqn:Hline; [|done]. simpl in Hrun.
  rewrite (time_offset_lines_other _ _ _ _ Hrun Hpost).
  apply time_offset_line_effect in Hline as (tok' & val' & rest' & x' & Hf & Hv & ->).
  rewrite Hfields in Hf. injection Hf as <- <- <-.
  rewrite Hval in Hv. injection Hv as <-. apply lookup_insert_eq.
Qed.

(** ** The detection file: what the lines are *)

Lemma remove_char_comm (a b : ascii) (s : string) :
  Str.remove_char a (Str.remove_char b s) = Str.remove_char b (Str.remove_char a s).
Proof.
  induction s as [|c s IH]; [done|]. simpl.
  destruct (Ascii.eqb c b) eqn:Hb, (Ascii.eqb c a) eqn:Ha; simpl;
    rewrite ?Hb, ?Ha, ?IH; done.
Qed.

Lemma remove_char_idem (a : ascii) (s : string) :
  Str.remove_char a (Str.remove_char a s) = Str.remove_char a s.
Proof.
  induction s as [|c s IH]; [done|]. simpl.
  destruct (Ascii.eqb c a) eqn:Ha; simpl; rewrite ?Ha, ?IH; done.
Qed.

Lemma clean_idem (line : string) : clean (clean line) = clean line.
Proof.
  unfold clean.
  rewrite (remove_char_comm LF CR), !remove_char_idem. done.
Qed.

Section DetectionLines.
Variable radians : float → float.
Variable date2JD : Z → Z → Z → Z → Z → Z → Z → result float.
Variable stations : gmap StationId (float * float * float).
Variable time_offsets : option (gmap StationId float).

Lemma detect_line_clean (st : locals) (line : string) :
  detect_line radians date2JD stations time_offsets st line
  = detect_line radians date2JD stations time_offsets st (clean line).
Proof.
  unfold detect_line.
  change (Str.remove_char CR (Str.remove_char LF (clean line)))
    with (clean (clean line)).
  rewrite clean_idem. reflexivity.
Qed.

Lemma detect_line_empty (st : locals) :
  detect_line radians date2JD stations time_offsets st EmptyString = Ok (Continue, st).
Proof. reflexivity. Qed.

(** X9. Only the text of the non-empty lines of a detection file matters:
    carriage returns and line feeds are dropped wherever they stand, and a
    line that is empty without them is skipped in every state of the
    parser. The result is the one of the file with such lines removed and
    the others stripped. *)
Theorem loadFTPDetectInfo_line_ends (f : list string) :
  loadFTPDetectInfo radians date2JD f stations time_offsets
  = loadFTPDetectInfo radians date2JD
      (take 11 f ++ filter (λ line, line ≠ EmptyString) (map clean (drop 11 f)))
      stations time_offsets.
Proof.
  unfold loadFTPDetectInfo.
  destruct (decide (length f < 11)) as [Hshort|Hlong].
  - rewrite drop_ge, take_ge by lia. simpl. by rewrite app_nil_r.
  - rewrite <- (take_drop 11 f) at 1.
    rewrite !skip_lines_app by (rewrite length_take; lia). simpl.
    rewrite (for_each_break_ext (detect_line radians date2JD stations time_offsets)
               clean) by (intros; apply detect_line_clean).
    rewrite (for_each_break_filter _ (λ line, line ≠ EmptyString)); [done|].
    intros st line Hline. destruct (decide (line = EmptyString)) as [->|]; [|done].
    apply detect_line_empty.
Qed.

(** ** The detection file: one observation per separator *)

Lemma seq_snoc (k : nat) : seq 0 k ++ [k] = seq 0 (S k).
Proof. by rewrite seq_S. Qed.

Lemma finish_shape (w w' : world float) (m : nat) :
  finish w m = Ok w' →
  length (objects w') = length (objects w) ∧ console w' = console w.
Proof.
  unfold finish. destruct (deref w m); [|done]. simpl. intros [= <-].
  unfold assign; simpl. by rewrite length_insert.
Qed.

Lemma addPoint_shape (w w' : world float) (m : nat) frame_n azim elev ra dec mag :
  addPoint radians w m frame_n azim elev ra dec mag = Ok w' →
  length (objects w') = length (objects w).
Proof.
  unfold addPoint. destruct (deref w m) as [o|]; [|done]. simpl.
  destruct (truediv frame_n (fps o)); [|done]. simpl.
  destruct (append (time_data o) _); [|done]. simpl.
  destruct (append (azim_data o) _); [|done]. simpl.
  destruct (append (elev_data o) _); [|done]. simpl.
  destruct (append (ra_data o) _); [|done]. simpl.
  destruct (append (dec_data o) _); [|done]. simpl.
  intros [= <-]. unfold assign; simpl. by rewrite length_insert.
Qed.

Lemma point_line_shape (st st' : locals) (m : nat) (line : string) :
  point_line radians st m line = Ok st' →
  length (objects (heap st')) = length (objects (heap st))
  ∧ meteor_list st' = meteor_list st ∧ current_meteor st' = current_meteor st
  ∧ bin_name st' = bin_name st ∧ cal_name st' = cal_name st
  ∧ meteor_header st' = meteor_header st.
Proof.
  unfold point_line.
  do 5 (match goal with
        | |- (?x ≫= _) = _ → _ => destruct x; simpl; [|done]
        end).
  destruct (read_mag _); simpl; [|done].
  destruct (addPoint radians _ _ _ _ _ _ _ _) as [w|] eqn:Hadd; simpl; [|done].
  intros [= <-]. simpl. apply addPoint_shape in Hadd. done.
Qed.

(** The meteor header either opens a record on a new object, or prints the
    two lines of the error and leaves the loop. *)
Lemma header_line_shape (st st' : locals) (line : string) (fl : flow) :
  header_line stations time_offsets st line = Ok (fl, st') →
  match fl with
  | Continue =>
      length (objects (heap st')) = S (length (objects (heap st)))
      ∧ current_meteor st' = Some (length (objects (heap st)))
  | Break =>
      Exiting ∈ console (heap st')
      ∧ length (objects (heap st')) = length (objects (heap st))
      ∧ current_meteor st' = current_meteor st
  end
  ∧ meteor_list st' = meteor_list st ∧ bin_name st' = bin_name st
  ∧ cal_name st' = cal_name st ∧ meteor_header st' = meteor_header st.
Proof.
  unfold header_line.
  destruct (index (Str.split line) 0) as [tok|]; simpl; [|done].
  destruct (float_at (Str.split line) 3) as [rate|]; simpl; [|done].
  set (id := coerce_station_id tok).
  match goal with
  | |- (?x ≫= _) = _ → _ =>
      assert (∀ w v, x = Ok (w, v) → length (objects w) = length (objects (heap st)))
        as Hprint; [|destruct x as [[w v]|]; simpl; [|done]]
  end.
  { intros w v. destruct time_offsets as [offsets|]; [|by intros [= <- _]].
    destruct (offsets !! id); [|by intros [= <- _]].
    destruct (format_s id); simpl; [|done].
    destruct (read_jdt_ref st); simpl; [|done]. by intros [= <- _]. }
  specialize (Hprint w v eq_refl).
  destruct (stations !! id) as [[[lat lon] ht]|].
  - destruct v as [jd|]; simpl; [|done]. intros [= <- <-]. simpl.
    rewrite length_app, Hprint. simpl. split; [split; [lia | done] | done].
  - intros [= <- <-]. simpl. split; [|done].
    split; [unfold print; simpl; set_solver | done].
Qed.

(** One line, read in a state that fits the part of the file before it. *)
Lemma detect_line_phase (need : nat) (st st' : locals) (line : string) (fl : flow) :
  phase need st →
  (is_blank line = false → is_separator line = true → need = 0) →
  detect_line radians date2JD stations time_offsets st line = Ok (fl, st') →
  (fl = Break ∧ stopped st')
  ∨ (fl = Continue ∧ phase (next_need need line) st'
     ∧ separators_seen (next_need need line) st'
       = separators_seen need st
         + (if is_separator line then 1 else 0)).
Proof.
  intros (Hneed & Hbin & Hcal & Hhdr & Hcur & Hlist) Hsep.
  unfold detect_line, next_need, is_blank, is_separator in *.
  change (Str.remove_char CR (Str.remove_char LF line)) with (clean line).
  destruct (bool_decide (clean line = EmptyString)) eqn:Hblank.
  { intros [= <- <-]. right. split; [done|].
    apply bool_decide_eq_true in Hblank. rewrite Hblank. simpl.
    split; [by repeat split | lia]. }
  destruct (Str.contains "-----" (clean line)) eqn:Hs.
  { specialize (Hsep eq_refl eq_refl). subst need.
    unfold save_current. simpl. rewrite Hcur.
    destruct (length (objects (heap st))) as [|k] eqn:Hc.
    - intros [= <- <-]. right. split; [done|]. unfold phase, separators_seen.
      simpl. rewrite Hc. simpl in *. repeat split; try done; lia.
    - destruct (finish (heap st) k) as [w|] eqn:Hfin; simpl; [|done].
      intros [= <- <-]. right. split; [done|].
      apply finish_shape in Hfin as [Hlen _].
      unfold phase, separators_seen. simpl. rewrite Hlen, Hc, Hlist. simpl.
      repeat split; try done; try lia.
      apply seq_snoc. }
  rewrite Hbin, Hcal, Hhdr.
  destruct need as [|[|[|[|need]]]]; simpl; try lia.
  - (* points, or lines before the first record *)
    rewrite Hcur.
    destruct (length (objects (heap st))) as [|k] eqn:Hc.
    + intros [= <- <-]. right. split; [done|]. unfold phase, separators_seen.
      rewrite Hc. simpl. repeat split; try done; lia.
    + destruct (point_line radians st k (clean line)) as [st1|] eqn:Hpt; simpl; [|done].
      intros [= <- <-]. right. split; [done|].
      apply point_line_shape in Hpt as (Hlen & Hl & Hcm & Hb & Hca & Hh).
      unfold phase, separators_seen.
      rewrite Hlen, Hl, Hcm, Hb, Hca, Hh, Hbin, Hcal, Hhdr, Hcur, Hlist, Hc.
      repeat split; try done; lia.
  - (* the meteor header *)
    intros Hrun. apply header_line_shape in Hrun as (Hfl & Hl & Hb & Hca & Hh).
    destruct fl; [right | left].
    + destruct Hfl as [Hlen Hcm].
      split; [done|]. unfold phase, separators_seen. simpl in *.
      rewrite Hlen, Hl, Hb, Hca, Hh, Hcm, Hlist. simpl.
      repeat split; try done; lia.
    + destruct Hfl as (Hexit & Hlen & Hcm). split; [done|].
      unfold stopped. simpl in *. rewrite Hlen, Hcm, Hl. done.
  - (* the calibration line *)
    intros [= <- <-]. right. split; [done|]. unfold phase, separators_seen.
    simpl. repeat split; try done; lia.
  - (* the bin line *)
    destruct (bin_line_jd date2JD (clean line)) as [jd|]; simpl; [|done].
    intros [= <- <-]. right. split; [done|]. unfold phase, separators_seen.
    simpl. repeat split; try done; lia.
Qed.

Lemma count_separators_cons (line : string) (lines : list string) :
  count_separators (line :: lines)
  = (if is_separator line then 1 else 0) + count_separators lines.
Proof.
  unfold count_separators. rewrite filter_cons.
  destruct (is_separator line); by case_decide.
Qed.

Lemma count_separators_snoc (lines : list string) (line : string) :
  count_separators (lines ++ [line])
  = count_separators lines + (if is_separator line then 1 else 0).
Proof.
  induction lines as [|l lines IH]; simpl.
  - rewrite count_separators_cons. unfold count_separators. simpl. lia.
  - rewrite !count_separators_cons, IH. lia.
Qed.

Lemma regular_orderly (lines : list string) :
  ∀ need, regular need lines = true →
    orderly need lines = true ∧ final_need need lines = 0.
Proof.
  induction lines as [|line lines IH]; intros need Hreg; simpl in *.
  - by apply bool_decide_eq_true in Hreg.
  - unfold final_need in *. simpl. unfold next_need at 1 3.
    destruct (is_blank line); [by apply IH|].
    destruct (is_separator line).
    + apply andb_true_iff in Hreg as [-> Hreg]. by apply IH.
    + by apply IH.
Qed.

Lemma orderly_snoc (lines : list string) (line : string) :
  ∀ need, orderly need lines = true → final_need need lines = 0 →
    orderly need (lines ++ [line]) = true
    ∧ final_need need (lines ++ [line]) = next_need 0 line.
Proof.
  unfold final_need. intros need Hord Hfin. rewrite foldl_app, Hfin. simpl.
  split; [|done]. revert need Hord Hfin.
  induction lines as [|l lines IH]; intros need Hord Hfin; simpl in *.
  - subst need. rewrite andb_true_r.
    destruct (is_blank line); [done|]. by destruct (is_separator line).
  - apply andb_true_iff in Hord as [-> Hord]. by apply IH.
Qed.

(** The error is printed on the way out of the loop only. *)
Lemma addPoint_quiet (w w' : world float) (m : nat) frame_n azim elev ra dec mag :
  addPoint radians w m frame_n azim elev ra dec mag = Ok w' →
  Exiting ∉ console w → Exiting ∉ console w'.
Proof.
  unfold addPoint. destruct (deref w m) as [o|]; [|done]. simpl.
  destruct (truediv frame_n (fps o)); [|done]. simpl.
  destruct (append (time_data o) _); [|done]. simpl.
  destruct (append (azim_data o) _); [|done]. simpl.
  destruct (append (elev_data o) _); [|done]. simpl.
  destruct (append (ra_data o) _); [|done]. simpl.
  destruct (append (dec_data o) _); [|done]. simpl.
  intros [= <-]. simpl. set_solver.
Qed.

Lemma save_current_quiet (st st' : locals) :
  save_current st = Ok st' →
  Exiting ∉ console (heap st) → Exiting ∉ console (heap st').
Proof.
  unfold save_current. destruct (current_meteor st) as [m|]; [|by intros [= <-]].
  destruct (finish (heap st) m) as [w|] eqn:Hfin; [|done]. simpl.
  intros [= <-]. simpl. apply finish_shape in Hfin as [_ ->]. done.
Qed.

Lemma header_line_quiet (st st' : locals) (line : string) :
  header_line stations time_offsets st line = Ok (Continue, st') →
  Exiting ∉ console (heap st) → Exiting ∉ console (heap st').
Proof.
  intros Hrun Hquiet. revert Hrun. unfold header_line.
  destruct (index (Str.split line) 0) as [tok|]; simpl; [|done].
  destruct (float_at (Str.split line) 3) as [rate|]; simpl; [|done].
  set (id := coerce_station_id tok).
  match goal with
  | |- (?x ≫= _) = _ → _ =>
      assert (∀ w v, x = Ok (w, v) → Exiting ∉ console w)
        as Hprint; [|destruct x as [[w v]|]; simpl; [|done]]
  end.
  { intros w v. destruct time_offsets as [offsets|]; [|by intros [= <- _]].
    destruct (offsets !! id); [|intros [= <- _]; simpl; set_solver].
    destruct (format_s id); simpl; [|done].
    destruct (read_jdt_ref st); simpl; [|done].
    intros [= <- _]. simpl. set_solver. }
  specialize (Hprint w v eq_refl).
  destruct (stations !! id) as [[[lat lon] ht]|]; [|done].
  destruct v as [jd|]; simpl; [|done]. by intros [= <-].
Qed.

Lemma point_line_quiet (st st' : locals) (m : nat) (line : string) :
  point_line radians st m line = Ok st' →
  Exiting ∉ console (heap st) → Exiting ∉ console (heap st').
Proof.
  unfold point_line.
  do 5 (match goal with
        | |- (?x ≫= _) = _ → _ => destruct x; simpl; [|done]
        end).
  destruct (read_mag _); simpl; [|done].
  destruct (addPoint radians _ _ _ _ _ _ _ _) as [w|] eqn:Hadd; simpl; [|done].
  intros [= <-] Hquiet. simpl. by eapply addPoint_quiet.
Qed.

Lemma detect_line_quiet (st st' : locals) (line : string) :
  detect_line radians date2JD stations time_offsets st line = Ok (Continue, st') →
  Exiting ∉ console (heap st) → Exiting ∉ console (heap st').
Proof.
  intros Hrun Hquiet. revert Hrun. unfold detect_line.
  destruct (bool_decide _); [by intros [= <-]|].
  destruct (Str.contains _ _).
  { destruct (save_current _) as [st1|] eqn:Hsave; simpl; [|done].
    intros [= <-]. by apply save_current_quiet in Hsave. }
  destruct (bin_name st).
  { destruct (bin_line_jd _ _); simpl; [|done]. by intros [= <-]. }
  destruct (cal_name st); [by intros [= <-]|].
  destruct (meteor_header st).
  { intros Hhdr. by apply header_line_quiet in Hhdr. }
  destruct (current_meteor st) as [m|]; [|by intros [= <-]].
  simpl. destruct (point_line radians st m _) as [st1|] eqn:Hpt; simpl; [|done].
  intros [= <-]. by apply point_line_quiet in Hpt.
Qed.

Lemma detect_lines_phase (lines : list string) :
  ∀ (need : nat) (st st' : locals),
    phase need st → orderly need lines = true →
    Exiting ∉ console (heap st) →
    for_each_break (detect_line radians date2JD stations time_offsets) st lines
    = Ok st' →
    stopped st'
    ∨ (phase (final_need need lines) st'
       ∧ (Exiting ∉ console (heap st'))
       ∧ separators_seen (final_need need lines) st'
         = separators_seen need st + count_separators lines).
Proof.
  induction lines as [|line lines IH]; intros need st st' Hphase Hord Hquiet Hrun.
  - injection Hrun as <-. right. split; [done|]. split; [done|].
    unfold count_separators, final_need. simpl. lia.
  - simpl in Hrun.
    destruct (detect_line radians date2JD stations time_offsets st line)
      as [[fl st1]|] eqn:Hline; [|done].
    simpl in Hrun. simpl in Hord. apply andb_true_iff in Hord as [Hhere Hord].
    assert (is_blank line = false → is_separator line = true → need = 0) as Hsep.
    { intros Hb Hs. rewrite Hb, Hs in Hhere. by apply bool_decide_eq_true in Hhere. }
    destruct (detect_line_phase need st st1 line fl Hphase Hsep Hline)
      as [[-> Hstop]|(-> & Hphase' & Hseen)].
    + injection Hrun as <-. by left.
    + pose proof (detect_line_quiet _ _ _ Hline Hquiet) as Hquiet'.
      destruct (IH _ _ _ Hphase' Hord Hquiet' Hrun) as [?|(? & ? & Hcount)];
        [by left|].
      right. split; [done|]. split; [done|].
      change (final_need need (line :: lines))
        with (final_need (next_need need line) lines).
      rewrite count_separators_cons. lia.
Qed.

Lemma quiet_start : Exiting ∉ console (heap start).
Proof. simpl. apply not_elem_of_nil. Qed.

(** The block after the loop, on the two ways out of it. *)
Lemma save_current_stopped (st : locals) (w : world float) (l : list nat) :
  stopped st → save_current st ≫= (λ st, Ok (heap st, meteor_list st)) = Ok (w, l) →
  Exiting ∈ console w ∧ l = last_twice (length (objects w)).
Proof.
  intros (Hexit & Hcur & Hlist). unfold save_current. rewrite Hcur.
  destruct (length (objects (heap st))) as [|k] eqn:Hc.
  - intros [= <- <-]. rewrite Hc, Hlist. done.
  - destruct (finish (heap st) k) as [w1|] eqn:Hfin; [|done]. simpl.
    intros [= <- <-]. apply finish_shape in Hfin as [-> ->].
    rewrite Hc, Hlist. done.
Qed.

Lemma save_current_phase (st : locals) (w : world float) (l : list nat) :
  phase 0 st → save_current st ≫= (λ st, Ok (heap st, meteor_list st)) = Ok (w, l) →
  l = seq 0 (length (objects w))
  ∧ length (objects w) = length (objects (heap st)) ∧ console w = console (heap st).
Proof.
  intros (_ & _ & _ & _ & Hcur & Hlist). unfold save_current. rewrite Hcur.
  destruct (length (objects (heap st))) as [|k] eqn:Hc.
  - intros [= <- <-]. rewrite Hc, Hlist. done.
  - destruct (finish (heap st) k) as [w1|] eqn:Hfin; [|done]. simpl.
    intros [= <- <-]. apply finish_shape in Hfin as [-> ->].
    rewrite Hc, Hlist. split; [apply seq_snoc | done].
Qed.

Lemma phase_start : phase 0 start.
Proof. unfold phase; simpl; repeat split; try done; lia. Qed.

(** X10. A regular detection file (after each separator at least a bin line,
    a calibration line and a meteor header before the next separator or the
    end of the file) that parses without the "Exiting" error: the list
    returned holds as many observations as the file has separator lines,
    every one a different object, in the order of the file. *)
Theorem loadFTPDetectInfo_one_per_separator (header body : list string)
    (w : world float) (l : list nat) :
  length header = 11 → regular 0 body = true →
  loadFTPDetectInfo radians date2JD (header ++ body) stations time_offsets = Ok (w, l) →
  Exiting ∉ console w →
  l = seq 0 (count_separators body) ∧ length (objects w) = count_separators body.
Proof.
  intros Hlen Hreg Hrun Hquiet. unfold loadFTPDetectInfo in Hrun.
  rewrite skip_lines_app in Hrun by done. simpl in Hrun.
  destruct (for_each_break _ start body) as [st|] eqn:Hloop; [|done].
  simpl in Hrun. apply regular_orderly in Hreg as [Hord Hfin].
  destruct (detect_lines_phase body 0 start st phase_start Hord quiet_start Hloop)
    as [Hstop|(Hphase & _ & Hseen)].
  - destruct (save_current_stopped st w l Hstop Hrun) as [Hexit _]. done.
  - rewrite Hfin in Hphase, Hseen.
    destruct (save_current_phase st w l Hphase Hrun) as (-> & Hobj & _).
    unfold separators_seen in Hseen. simpl in Hseen. rewrite Hobj. split; [f_equal|]; lia.
Qed.

(** X11. A regular detection file that names a station the catalog does
    not hold: when the error was printed, the last object created before
    that station is listed twice (and the rest of the file is not read). *)
Theorem loadFTPDetectInfo_unknown_station (header body : list string)
    (w : world float) (l : list nat) :
  length header = 11 → regular 0 body = true →
  loadFTPDetectInfo radians date2JD (header ++ body) stations time_offsets = Ok (w, l) →
  Exiting ∈ console w →
  l = last_twice (length (objects w)).
Proof.
  intros Hlen Hreg Hrun Hexit. unfold loadFTPDetectInfo in Hrun.
  rewrite skip_lines_app in Hrun by done. simpl in Hrun.
  destruct (for_each_break _ start body) as [st|] eqn:Hloop; [|done].
  simpl in Hrun. apply regular_orderly in Hreg as [Hord Hfin].
  destruct (detect_lines_phase body 0 start st phase_start Hord quiet_start Hloop)
    as [Hstop|(Hphase & Hquiet & _)].
  - by destruct (save_current_stopped st w l Hstop Hrun).
  - rewrite Hfin in Hphase.
    destruct (save_current_phase st w l Hphase Hrun) as (_ & _ & Hconsole).
    by rewrite Hconsole in Hexit.
Qed.

(** X12. A regular detection file with a separator after its last record,
    which parses without the "Exiting" error: the separator lists the last
    object and the end of the file lists it again, so the list returned
    holds it twice, whatever the number of records. *)
Theorem loadFTPDetectInfo_trailing_separator (header body : list string)
    (line : string) (w : world float) (l : list nat) :
  length header = 11 → regular 0 body = true → is_separator line = true →
  loadFTPDetectInfo radians date2JD (header ++ body ++ [line]) stations time_offsets
  = Ok (w, l) →
  Exiting ∉ console w →
  l = last_twice (length (objects w))
  ∧ length (objects w) = count_separators body.
Proof.
  intros Hlen Hreg Hsep Hrun Hquiet. unfold loadFTPDetectInfo in Hrun.
  rewrite skip_lines_app in Hrun by done. simpl in Hrun.
  destruct (for_each_break _ start (body ++ [line])) as [st|] eqn:Hloop; [|done].
  simpl in Hrun. apply regular_orderly in Hreg as [Hord Hfin].
  assert (is_blank line = false) as Hblank.
  { unfold is_blank, is_separator in *. apply bool_decide_eq_false. intros Hb.
    by rewrite Hb in Hsep. }
  destruct (orderly_snoc body line 0 Hord Hfin) as [Hord' Hfin'].
  unfold next_need in Hfin'. rewrite Hblank, Hsep in Hfin'.
  destruct (detect_lines_phase _ 0 start st phase_start Hord' quiet_start Hloop)
    as [Hstop|(Hphase & _ & Hseen)].
  - destruct (save_current_stopped st w l Hstop Hrun) as [Hexit _]. done.
  - rewrite Hfin' in Hphase, Hseen.
    destruct Hphase as (_ & _ & _ & _ & Hcur & Hlist).
    rewrite count_separators_snoc, Hsep in Hseen.
    unfold separators_seen in Hseen. simpl in Hseen.
    unfold save_current in Hrun. rewrite Hcur in Hrun.
    destruct (length (objects (heap st))) as [|k] eqn:Hc.
    + injection Hrun as <- <-. rewrite Hc, Hlist. split; [done | lia].
    + destruct (finish (heap st) k) as [w1|] eqn:Hfin1; [|done].
      simpl in Hrun. injection Hrun as <- <-.
      apply finish_shape in Hfin1 as [-> _]. rewrite Hc, Hlist.
      split; [done | lia].
Qed.

(** The parser keeps the store and its list sound, on every file. *)
Lemma sound_addPoint (w w' : world float) (l : list nat) (m : nat)
    frame_n azim elev ra dec mag :
  sound w l → addPoint radians w m frame_n azim elev ra dec mag = Ok w' →
  sound w' l.
Proof.
  intros [Hall Hl]. unfold addPoint, deref.
  destruct (objects w !! m) as [o|] eqn:Hd; [|done]. simpl.
  destruct (truediv frame_n (fps o)); [|done]. simpl.
  destruct (time_data o) as [t|t] eqn:Ht; [|done]. simpl.
  destruct (azim_data o) as [az|az] eqn:Haz; [|done]. simpl.
  destruct (elev_data o) as [el|el] eqn:Hel; [|done]. simpl.
  destruct (ra_data o) as [r|r] eqn:Hra; [|done]. simpl.
  destruct (dec_data o) as [d|d] eqn:Hdec; [|done]. simpl.
  intros [= <-]. split; simpl.
  - apply Forall_insert; [done|].
    pose proof (Forall_lookup_1 _ _ _ _ Hall Hd) as Hsame.
    unfold same_length in *. simpl. rewrite Ht, Haz, Hel, Hra, Hdec in Hsame.
    simpl in Hsame. rewrite !length_app. simpl. lia.
  - intros m' Hin. destruct (Hl m' Hin) as (o' & Hlook & Hfin).
    exists o'. split; [|done]. rewrite list_lookup_insert_ne; [done|].
    intros ->. rewrite Hd in Hlook. injection Hlook as <-.
    unfold finished in Hfin. by rewrite Ht in Hfin.
Qed.

Lemma sound_finish (w w' : world float) (l : list nat) (m : nat) :
  sound w l → finish w m = Ok w' → sound w' (l ++ [m]).
Proof.
  intros [Hall Hl]. unfold finish, deref.
  destruct (objects w !! m) as [o|] eqn:Hd; [|done]. simpl.
  intros [= <-]. split; simpl.
  - apply Forall_insert; [done|].
    by pose proof (Forall_lookup_1 _ _ _ _ Hall Hd) as Hsame.
  - intros m' Hin. destruct (decide (m' = m)) as [->|Hne].
    + eexists. split; [apply list_lookup_insert_eq; by eapply lookup_lt_Some|done].
    + apply elem_of_app in Hin as [Hin|Hin]; [|set_solver].
      destruct (Hl m' Hin) as (o' & Hlook & Hfin).
      exists o'. split; [|done]. by rewrite list_lookup_insert_ne.
Qed.

Lemma sound_save_current (st st' : locals) :
  sound (heap st) (meteor_list st) → save_current st = Ok st' →
  sound (heap st') (meteor_list st').
Proof.
  intros Hsound. unfold save_current.
  destruct (current_meteor st) as [m|]; [|by intros [= <-]].
  destruct (finish (heap st) m) as [w|] eqn:Hfin; [|done]. simpl.
  intros [= <-]. simpl. by eapply sound_finish.
Qed.

Lemma sound_header_line (st st' : locals) (line : string) (fl : flow) :
  sound (heap st) (meteor_list st) →
  header_line stations time_offsets st line = Ok (fl, st') →
  sound (heap st') (meteor_list st').
Proof.
  intros Hsound. unfold header_line.
  destruct (index (Str.split line) 0) as [tok|]; simpl; [|done].
  destruct (float_at (Str.split line) 3) as [rate|]; simpl; [|done].
  set (id := coerce_station_id tok).
  match goal with
  | |- (?x ≫= _) = _ → _ =>
      assert (∀ w v, x = Ok (w, v) → objects w = objects (heap st))
        as Hprint; [|destruct x as [[w v]|]; simpl; [|done]]
  end.
  { destruct time_offsets as [offsets|]; [|by intros ?? [= <- <-]].
    destruct (offsets !! id); [|by intros ?? [= <- <-]].
    destruct (format_s id); simpl; [|done].
    destruct (read_jdt_ref st); simpl; [|done]. by intros ?? [= <- <-]. }
  specialize (Hprint w v eq_refl).
  assert (sound w (meteor_list st)) as [Hall Hl].
  { unfold sound. by rewrite Hprint. }
  destruct (stations !! id) as [[[lat lon] ht]|].
  - destruct v as [jd|]; simpl; [|done]. intros [= <- <-]. simpl. split.
    + apply Forall_app_2; [done|]. apply Forall_singleton.
      by unfold same_length.
    + intros m Hin. destruct (Hl m Hin) as (o & Hlook & Hfin).
      exists o. split; [|done]. simpl. rewrite lookup_app_l; [done|].
      by eapply lookup_lt_Some.
  - intros [= <- <-]. by split.
Qed.

Lemma sound_point_line (st st' : locals) (m : nat) (line : string) :
  sound (heap st) (meteor_list st) → point_line radians st m line = Ok st' →
  sound (heap st') (meteor_list st').
Proof.
  intros Hsound. unfold point_line.
  do 5 (match goal with
        | |- (?x ≫= _) = _ → _ => destruct x; simpl; [|done]
        end).
  destruct (read_mag _); simpl; [|done].
  destruct (addPoint radians _ _ _ _ _ _ _ _) as [w|] eqn:Hadd; simpl; [|done].
  intros [= <-]. simpl. by eapply sound_addPoint.
Qed.

Lemma sound_detect_line (st st' : locals) (line : string) (fl : flow) :
  sound (heap st) (meteor_list st) →
  detect_line radians date2JD stations time_offsets st line = Ok (fl, st') →
  sound (heap st') (meteor_list st').
Proof.
  intros Hsound. unfold detect_line.
  destruct (bool_decide _); [by intros [= <- <-]|].
  destruct (Str.contains _ _).
  { destruct (save_current _) as [st1|] eqn:Hsave; simpl; [|done].
    intros [= <- <-]. by apply sound_save_current in Hsave. }
  destruct (bin_name st).
  { destruct (bin_line_jd _ _); simpl; [|done]. by intros [= <- <-]. }
  destruct (cal_name st); [by intros [= <- <-]|].
  destruct (meteor_header st); [by apply sound_header_line|].
  destruct (current_meteor st) as [m|]; [|by intros [= <- <-]].
  simpl. destruct (point_line radians st m _) as [st1|] eqn:Hpt; simpl; [|done].
  intros [= <- <-]. by apply sound_point_line in Hpt.
Qed.

Lemma sound_detect_lines (lines : list string) :
  ∀ st st' : locals,
    sound (heap st) (meteor_list st) →
    for_each_break (detect_line radians date2JD stations time_offsets) st lines
    = Ok st' →
    sound (heap st') (meteor_list st').
Proof.
  induction lines as [|line lines IH]; intros st st' Hsound Hrun.
  - by injection Hrun as <-.
  - simpl in Hrun.
    destruct (detect_line radians date2JD stations time_offsets st line)
      as [[fl st1]|] eqn:Hline; [|done].
    simpl in Hrun. apply sound_detect_line in Hline; [|done].
    destruct fl; [by eapply IH | by injection Hrun as <-].
Qed.

Lemma loadFTPDetectInfo_sound (f : list string) (w : world float) (l : list nat) :
  loadFTPDetectInfo radians date2JD f stations time_offsets = Ok (w, l) →
  sound w l.
Proof.
  intros Hrun. unfold loadFTPDetectInfo in Hrun.
  destruct (skip_lines 11 f) as [body|]; [|done]. simpl in Hrun.
  destruct (for_each_break _ start body) as [st|] eqn:Hloop; [|done].
  simpl in Hrun.
  destruct (save_current st) as [st1|] eqn:Hsave; [|done].
  simpl in Hrun. injection Hrun as <- <-.
  assert (sound (heap start) (meteor_list start)) as Hstart.
  { split; [constructor|]. intros ? Hnil. by apply elem_of_nil in Hnil. }
  apply (sound_detect_lines _ _ _ Hstart) in Hloop.
  by apply (sound_save_current _ _ Hloop) in Hsave.
Qed.

(** X13. Whatever the file, every observation that [loadFTPDetectInfo]
    returns is finished: its times and angles are arrays, so it takes no
    further point, and they have one length, that of its magnitudes. *)
Theorem loadFTPDetectInfo_returns_finished (f : list string)
    (w : world float) (l : list nat) (m : nat) :
  loadFTPDetectInfo radians date2JD f stations time_offsets = Ok (w, l) →
  m ∈ l →
  ∃ o, deref w m = Ok o ∧ finished o = true ∧ same_length o.
Proof.
  intros Hrun Hin. apply loadFTPDetectInfo_sound in Hrun as [Hall Hl].
  destruct (Hl m Hin) as (o & Hlook & Hfin). exists o.
  unfold deref. rewrite Hlook. repeat split; try done.
  all: by pose proof (Forall_lookup_1 _ _ _ _ Hall Hlook) as (? & ? & ? & ? & ?).
Qed.

End DetectionLines.

(** ** The observation container: after [finish] *)

Section FinishedObservations.
Context {F : Type} `{PyFloat F}.
Variable radians : F → F.


(** X15. [finish] may be called again: the second call changes nothing. *)
Theorem finish_twice (w w1 : world F) (m : nat) :
  finish w m = Ok w1 → finish w1 m = Ok w1.
Proof.
  unfold finish. destruct (deref w m) as [o|] eqn:Ho; [|done]. simpl.
  intros [= <-]. rewrite (deref_assign w m o _ Ho). simpl.
  unfold assign; simpl. by rewrite list_insert_insert_eq.
Qed.

End FinishedObservations.

(** ** Normalisation: what it leaves alone, and when it refuses *)

Section NormaliserEdges.
Context {F : Type} `{PyFloat F}.

Lemma same_record_refl (o : MeteorObservation F) : same_record o o.
Proof. by repeat split. Qed.

Lemma pass_over_refl (l : list nat) (w : world F) : pass_over l w w.
Proof.
  split; [|done]. intros m o Ho. exists o. split; [done | apply same_record_refl].
Qed.

Lemma pass_over_trans (l : list nat) (w1 w2 w3 : world F) :
  pass_over l w1 w2 → pass_over l w2 w3 → pass_over l w1 w3.
Proof.
  intros (Ha & Hb & Hc) (Ha' & Hb' & Hc'). split; [|split].
  - intros m o Ho. destruct (Ha m o Ho) as (o2 & Ho2 & Hr).
    destruct (Ha' m o2 Ho2) as (o3 & Ho3 & Hr'). exists o3. split; [done|].
    unfold same_record in *. intuition congruence.
  - intros m Hm. rewrite Hb', Hb; done.
  - congruence.
Qed.

Lemma pass_over_assign (l : list nat) (w : world F) (m : nat)
    (o o' : MeteorObservation F) :
  m ∈ l → deref w m = Ok o → same_record o o' → pass_over l w (assign w m o').
Proof.
  intros Hm Ho Hr. split; [|split; [|done]].
  - intros m1 o1 Ho1. destruct (decide (m = m1)) as [<-|Hne].
    + exists o'. rewrite (deref_assign w m o o' Ho).
      rewrite Ho in Ho1. injection Ho1 as <-. done.
    + exists o1. rewrite deref_assign_ne by done. split; [done|].
      apply same_record_refl.
  - intros m1 Hm1. apply deref_assign_ne. set_solver.
Qed.

(** A loop whose body rewrites one listed observation at a time, keeping
    it the same record. *)
Lemma for_each_pass_over {A} (body : world F → A → result (world F)) (key : A → nat)
    (l : list nat) (xs : list A) :
  (∀ w x w', body w x = Ok w' → key x ∈ l → pass_over l w w') →
  Forall (λ x, key x ∈ l) xs →
  ∀ w w', for_each body w xs = Ok w' → pass_over l w w'.
Proof.
  intros Hbody Hall. induction Hall as [|x xs Hx _ IH]; intros w w' Hrun.
  - injection Hrun as <-. apply pass_over_refl.
  - rewrite for_each_cons in Hrun.
    destruct (body w x) as [w1|] eqn:Hstep; [|done]. simpl in Hrun.
    eapply pass_over_trans; [by eapply Hbody | by apply IH].
Qed.

Lemma inplace_length (op : F → F → F) (s s' : pyseq F) (x : F) :
  inplace op s x = Ok s' → length (items s') = length (items s).
Proof.
  destruct s as [l|l]; [done|]. simpl. intros [= <-]. simpl. apply length_map.
Qed.

Lemma enumerate_keys (l : list nat) (i : nat) :
  Forall (λ im : nat * nat, im.2 ∈ l) (enumerate i l).
Proof.
  assert (∀ l0 i, Forall (λ im : nat * nat, im.2 ∈ l0) (enumerate i l0)) as Hgen.
  { clear. induction l0 as [|m l0 IH]; intros i; simpl; constructor.
    - simpl. set_solver.
    - eapply Forall_impl; [apply IH|]. simpl. set_solver. }
  apply Hgen.
Qed.

Variable J2000_JD_days : F.
Variable equatorialCoordPrecession_vect : F → list F → list F → list F → list F * list F.
Variable raDec2AltAz_vect : list F → list F → F → F → F → list F * list F.

(** X16. [prepareObservations] rewrites epochs, times and angles, and
    nothing else: when it returns, every object of the store is the same
    record as before (station, position, frame rate, magnitudes, number of
    points), the objects that are not in the list are untouched, nothing was
    printed, and the list returned is the list given. *)
Theorem prepareObservations_pass_over (w w' : world F) (meteor_list : list nat)
    (prepared : option (F * list nat)) :
  prepareObservations J2000_JD_days equatorialCoordPrecession_vect raDec2AltAz_vect
    w meteor_list = Ok (w', prepared) →
  pass_over meteor_list w w'
  ∧ (∀ jd l, prepared = Some (jd, l) → l = meteor_list).
Proof.
  unfold prepareObservations. destruct meteor_list as [|ref rest].
  { intros [= <- <-]. split; [apply pass_over_refl | done]. }
  simpl. destruct (deref w ref) as [r0|] eqn:Hr0; simpl; [|done].
  destruct (index (items (time_data r0)) 0) as [t0|]; simpl; [|done].
  destruct (inplace f_sub (time_data r0) t0) as [td|] eqn:Htd; simpl; [|done].
  match goal with
  | |- context [for_each (correct_time 0 ref) ?w1 _] => set (w1' := w1)
  end.
  assert (pass_over (ref :: rest) w w1') as H1.
  { apply (pass_over_assign _ _ _ r0); [set_solver | done |].
    repeat split; simpl; try done. by eapply inplace_length. }
  destruct (for_each (correct_time 0 ref) w1' (enumerate 1 rest)) as [w2|] eqn:Hloop;
    simpl; [|done].
  assert (pass_over (ref :: rest) w1' w2) as H2.
  { eapply (for_each_pass_over (correct_time 0 ref) snd); [| |exact Hloop].
    - intros wa [i m] wb Hstep Hm. unfold correct_time in Hstep.
      case_bool_decide; [|injection Hstep as <-; apply pass_over_refl].
      destruct (deref wa m) as [o|] eqn:Ho; [|done]. simpl in Hstep.
      destruct (deref wa ref) as [r|]; [|done]. simpl in Hstep.
      destruct (inplace f_add (time_data o) _) as [td'|] eqn:Htd'; [|done].
      simpl in Hstep. injection Hstep as <-.
      apply (pass_over_assign _ _ _ o); [done..|].
      repeat split; simpl; try done. by eapply inplace_length.
    - eapply Forall_impl; [apply (enumerate_keys rest 1)|]. simpl. set_solver. }
  destruct (deref w2 ref) as [r2|]; simpl; [|done].
  match goal with
  | |- context [precess ?J ?p ?a ?jd w2 ref ≫= ?k] =>
      change (precess J p a jd w2 ref ≫= k)
        with (for_each (precess J p a jd) w2 (ref :: rest))
  end.
  match goal with
  | |- context [for_each ?f w2 (ref :: rest)] =>
      destruct (for_each f w2 (ref :: rest)) as [w3|] eqn:Hprec; simpl; [|done]
  end.
  intros [= <- <-]. split; [|by intros jd l [= _ <-]].
  eapply pass_over_trans; [exact H1|]. eapply pass_over_trans; [exact H2|].
  eapply (for_each_pass_over _ (λ m : nat, m)); [| |exact Hprec].
  - intros wa m wb Hstep Hm. unfold precess in Hstep.
    destruct (deref wa m) as [o|] eqn:Ho; [|done]. simpl in Hstep.
    destruct (equatorialCoordPrecession_vect _ _ _ _) as [ra_prec dec_prec].
    destruct (raDec2AltAz_vect _ _ _ _ _) as [azim elev].
    injection Hstep as <-.
    apply (pass_over_assign _ _ _ o); [done..|]. by repeat split.
  - apply Forall_forall. done.
Qed.


Lemma ready_assign (l : list nat) (w : world F) (m : nat)
    (o o' : MeteorObservation F) :
  ready l w → deref w m = Ok o → is_array (time_data o') = true →
  ready l (assign w m o').
Proof.
  intros Hready Ho Harr m1 Hm1. destruct (decide (m = m1)) as [<-|Hne].
  - exists o'. by rewrite (deref_assign w m o o' Ho).
  - rewrite deref_assign_ne by done. by apply Hready.
Qed.

(** A loop over listed observations whose body returns on a ready store
    and leaves it ready. *)
Lemma for_each_ready {A} (body : world F → A → result (world F)) (key : A → nat)
    (l : list nat) (xs : list A) :
  (∀ w x, ready l w → key x ∈ l → ∃ w', body w x = Ok w' ∧ ready l w') →
  Forall (λ x, key x ∈ l) xs →
  ∀ w, ready l w → ∃ w', for_each body w xs = Ok w' ∧ ready l w'.
Proof.
  intros Hbody Hall. induction Hall as [|x xs Hx _ IH]; intros w Hw.
  - by exists w.
  - rewrite for_each_cons. destruct (Hbody w x Hw Hx) as (w1 & -> & Hw1).
    simpl. by apply IH.
Qed.

(** On a ready store whose first observation has a point, no step of
    [prepareObservations] raises, and the store stays ready. *)
Lemma prepareObservations_on_ready (w : world F) (ref : nat) (rest : list nat)
    (r0 : MeteorObservation F) :
  ready (ref :: rest) w → deref w ref = Ok r0 → items (time_data r0) ≠ [] →
  ∃ w' jd,
    prepareObservations J2000_JD_days equatorialCoordPrecession_vect raDec2AltAz_vect
      w (ref :: rest) = Ok (w', Some (jd, ref :: rest))
    ∧ ready (ref :: rest) w'.
Proof.
  intros Hready Hr0 Hpoint. unfold prepareObservations. simpl.
  rewrite Hr0. simpl.
  destruct (Hready ref) as (r & Hr & Harr); [set_solver|].
  rewrite Hr0 in Hr. injection Hr as <-.
  destruct (time_data r0) as [ts|ts] eqn:Ht; [done|]. simpl in Hpoint.
  destruct ts as [|t0 ts]; [done|]. simpl.
  match goal with
  | |- context [for_each (correct_time 0 ref) ?w1 _] => set (w1' := w1)
  end.
  assert (ready (ref :: rest) w1') as H1.
  { by apply (ready_assign _ _ _ r0). }
  destruct (for_each_ready (correct_time 0 ref) snd (ref :: rest) (enumerate 1 rest))
    with (w := w1') as (w2 & -> & H2); [| |done|].
  { intros wa [i m] Hwa Hm. unfold correct_time. simpl in Hm.
    case_bool_decide; [|by exists wa].
    destruct (Hwa m Hm) as (o & Ho & Harr'). rewrite Ho. simpl.
    destruct (Hwa ref) as (r & Hr & _); [set_solver|]. rewrite Hr. simpl.
    destruct (time_data o) as [td|td] eqn:Htd; [done|]. simpl.
    eexists. split; [done|]. by apply (ready_assign _ _ _ o). }
  { eapply Forall_impl; [apply (enumerate_keys rest 1)|]. simpl. set_solver. }
  simpl. destruct (H2 ref) as (r2 & Hr2 & _); [set_solver|]. rewrite Hr2. simpl.
  match goal with
  | |- context [precess ?J ?p ?a ?jd w2 ref ≫= ?k] =>
      change (precess J p a jd w2 ref ≫= k)
        with (for_each (precess J p a jd) w2 (ref :: rest))
  end.
  match goal with
  | |- context [for_each ?f w2 (ref :: rest)] =>
      destruct (for_each_ready f (λ m : nat, m) (ref :: rest) (ref :: rest))
        with (w := w2) as (w3 & -> & H3); [| |done|]
  end.
  { intros wa m Hwa Hm. unfold precess.
    destruct (Hwa m Hm) as (o & Ho & Harr'). rewrite Ho. simpl.
    destruct (equatorialCoordPrecession_vect _ _ _ _) as [ra_prec dec_prec].
    destruct (raDec2AltAz_vect _ _ _ _ _) as [azim elev].
    eexists. split; [done|]. by apply (ready_assign _ _ _ o). }
  { apply Forall_forall. done. }
  simpl. by eexists _, _.
Qed.

(** X18. [prepareObservations] returns on finished observations: when
    every observation of the list has an array for its times and the first
    one has a point, no step raises, and the list comes back as it was
    given, with the shared epoch. *)
Theorem prepareObservations_returns (w : world F) (ref : nat) (rest : list nat)
    (r0 : MeteorObservation F) :
  ready (ref :: rest) w → deref w ref = Ok r0 → items (time_data r0) ≠ [] →
  ∃ w' jd,
    prepareObservations J2000_JD_days equatorialCoordPrecession_vect raDec2AltAz_vect
      w (ref :: rest) = Ok (w', Some (jd, ref :: rest)).
Proof.
  intros Hready Hr0 Hpoint.
  destruct (prepareObservations_on_ready w ref rest r0 Hready Hr0 Hpoint)
    as (w' & jd & Hrun & _).
  by exists w', jd.
Qed.

End NormaliserEdges.

(** ** From the detection file to the normalised observations *)

Section Pipeline.
Variable radians : float → float.
Variable date2JD : Z → Z → Z → Z → Z → Z → Z → result float.
Variable stations : gmap StationId (float * float * float).
Variable time_offsets : option (gmap StationId float).
Variable J2000_JD_days : float.
Variable equatorialCoordPrecession_vect :
  float → list float → list float → list float → list float * list float.
Variable raDec2AltAz_vect :
  list float → list float → float → float → float → list float * list float.

(** X19. What [loadFTPDetectInfo] returns, [prepareObservations] accepts:
    on the list read from any detection file, the only way the normaliser
    fails is a first observation without a point; otherwise it returns the
    list with its epoch, and the observations are still finished for the
    solver. *)
Theorem loaded_observations_normalise (f : list string) (w : world float)
    (ref : nat) (rest : list nat) (r0 : MeteorObservation float) :
  loadFTPDetectInfo radians date2JD f stations time_offsets = Ok (w, ref :: rest) →
  deref w ref = Ok r0 → items (time_data r0) ≠ [] →
  ∃ w' jd,
    prepareObservations J2000_JD_days equatorialCoordPrecession_vect raDec2AltAz_vect
      w (ref :: rest) = Ok (w', Some (jd, ref :: rest))
    ∧ ready (ref :: rest) w'.
Proof.
  intros Hload Hr0 Hpoint.
  apply loadFTPDetectInfo_sound in Hload as [_ Hl].
  apply (prepareObservations_on_ready _ _ _ w ref rest r0); [|done..].
  intros m Hm. destruct (Hl m Hm) as (o & Hlook & Hfin). exists o.
  unfold deref. rewrite Hlook. split; [done|].
  unfold finished in Hfin. by destruct (is_array (time_data o)).
Qed.

End Pipeline.

(** ** Export and photometry *)

Section ExportProperties.
Context {F : Type} `{PyFloat F}.
Variable J2000_JD_days : F.
Variable equatorialCoordPrecession_vect : F → list F → list F → list F → list F * list F.
Variable raDec2AltAz_vect : list F → list F → F → F → F → list F * list F.
Variable of_int : Z → F.
Variable np_pi : F.
Variable np_mod : F → F → F.
Variable np_log10 : F → F.
Variables traj options excluded ignored : Type.
Variable Trajectory : F → string → Z → kwargs F options → result traj.
Variable GuralTrajectory : nat → F → Z → option (option F) → Z → string → result traj.
Variable infillTrajectory : traj → infill F excluded ignored → result traj.
Variable run : traj → result traj.
Variable writeMiligInputFile : F → list (StationData F) → string → result unit.

(** X20. The empty list of observations: [solveTrajectoryCAMS] returns
    [None] whatever the selector, builds no solver and prints nothing (not
    even the message of an unknown selector), while [cams2MiligInput] does
    not test the [None] that [prepareObservations] returns and raises
    [TypeError] before any file is written. *)
Theorem empty_observation_list (w : world F) (output_dir solver file_path : string)
    (kw : kwargs F options) :
  solveTrajectoryCAMS J2000_JD_days equatorialCoordPrecession_vect raDec2AltAz_vect
    traj options excluded ignored Trajectory GuralTrajectory infillTrajectory run
    w [] output_dir solver kw = Ok (w, None)
  ∧ cams2MiligInput J2000_JD_days equatorialCoordPrecession_vect raDec2AltAz_vect
      of_int np_pi np_mod writeMiligInputFile w [] file_path = Raise TypeError.
Proof. split; reflexivity. Qed.

End ExportProperties.

Section MiligProperties.
Context {F : Type} `{PyFloat F}.
Variable of_int : Z → F.
Variable np_pi : F.
Variable np_mod : F → F → F.

Lemma milig_list_from (w : world F) (l : list nat) :
  ∀ (i : nat) (acc r : list (StationData F)),
    for_each (λ acc im, m ← deref w im.2;
                Ok (acc ++ [milig_station of_int np_pi np_mod im.1 m]))
      acc (enumerate i l) = Ok r →
    ∃ os, Forall2 (λ m o, deref w m = Ok o) l os
          ∧ r = acc ++ imap (λ k o, milig_station of_int np_pi np_mod (i + k) o) os.
Proof.
  induction l as [|m l IH]; intros i acc r Hrun.
  - injection Hrun as <-. exists []. split; [constructor|]. simpl.
    by rewrite app_nil_r.
  - change (enumerate i (m :: l)) with ((i, m) :: enumerate (S i) l) in Hrun.
    rewrite for_each_cons in Hrun. simpl in Hrun.
    destruct (deref w m) as [o|] eqn:Ho; [|done]. simpl in Hrun.
    destruct (IH _ _ _ Hrun) as (os & Hos & ->).
    exists (o :: os). split; [by constructor|].
    rewrite <- app_assoc. simpl. rewrite Nat.add_0_r. do 2 f_equal.
    apply imap_ext. intros k o' _. simpl. f_equal. lia.
Qed.

(** X21. MILIG station numbers: when no observation of the list has a
    numeric station id, [cams2MiligInput] numbers the stations [1, 2, ...]
    in the order of the list, one station per observation. *)
Theorem milig_list_numbers (w : world F) (l : list nat) (stations : list (StationData F)) :
  milig_list of_int np_pi np_mod w l = Ok stations →
  (∀ m o, m ∈ l → deref w m = Ok o →
     ∃ s, station_id o = StrId s ∧ is_ok (py_int s) = false) →
  sd_station_id <$> stations = (λ k, Z.of_nat k + 1)%Z <$> seq 0 (length l).
Proof.
  unfold milig_list. intros Hrun Hids.
  apply milig_list_from in Hrun as (os & Hos & ->). simpl.
  assert (∀ i, sd_station_id
                 <$> imap (λ k o, milig_station of_int np_pi np_mod (i + k) o) os
               = (λ k, Z.of_nat k + 1)%Z <$> seq i (length l)) as Hgen;
    [|exact (Hgen 0)].
  induction Hos as [|m o l os Ho _ IH]; intros i; [done|]. simpl.
  f_equal.
  - destruct (Hids m o) as (s & Hs & Hint); [set_solver | done |].
    unfold milig_station_id. rewrite Hs, Nat.add_0_r.
    by destruct (py_int s).
  - etrans;
      [|exact (IH (λ m' o' Hm', Hids m' o' (list_elem_of_further _ _ _ Hm')) (S i))].
    f_equal. apply imap_ext. intros k o' _. simpl. f_equal. lia.
Qed.

End MiligProperties.

Section PhotometryProperties.
Context {F : Type} `{PyFloat F}.
Variable of_int : Z → F.
Variable np_log10 : F → F.

Lemma absolute_magnitudes_valid (ranges : list (list F)) (w w' : world F)
    (im : nat * nat) (m : nat) :
  absolute_magnitudes of_int np_log10 ranges w im = Ok w' →
  is_ok (deref w' m) = is_ok (deref w m).
Proof.
  destruct im as [i m0]. unfold absolute_magnitudes.
  destruct (index ranges i); simpl; [|done].
  destruct (deref w m0) as [o|] eqn:Ho; simpl; [|done]. intros [= <-].
  destruct (decide (m0 = m)) as [<-|Hne].
  - by rewrite (deref_assign w m0 o _ Ho), Ho.
  - by rewrite deref_assign_ne.
Qed.

Lemma computeAbsoluteMagnitudes_from (ranges : list (list F)) (l : list nat) :
  ∀ (i : nat) (w : world F),
    (∀ m, m ∈ l → is_ok (deref w m) = true) →
    is_ok (for_each (absolute_magnitudes of_int np_log10 ranges) w (enumerate i l)) = true
    ↔ l = [] ∨ i + length l ≤ length ranges.
Proof.
  induction l as [|m l IH]; intros i w Hall; [by split; auto|].
  change (enumerate i (m :: l)) with ((i, m) :: enumerate (S i) l).
  rewrite for_each_cons.
  destruct (absolute_magnitudes of_int np_log10 ranges w (i, m)) as [w1|] eqn:Hstep.
  - simpl. rewrite IH.
    + assert (i < length ranges).
      { unfold absolute_magnitudes, index in Hstep.
        destruct (ranges !! i) eqn:Hi; [|done]. by eapply lookup_lt_Some. }
      simpl. split; [intros [->|?]; right; simpl; lia | intros [?|?]; [done|]].
      right. lia.
    + intros m' Hm'. rewrite (absolute_magnitudes_valid _ _ _ _ _ Hstep).
      apply Hall. set_solver.
  - simpl. split; [done|]. intros [?|Hlen]; [done|]. exfalso.
    unfold absolute_magnitudes, index in Hstep. simpl in Hlen.
    destruct (ranges !! i) eqn:Hi.
    + simpl in Hstep. specialize (Hall m (list_elem_of_here m l)).
      destruct (deref w m); done.
    + apply lookup_ge_None in Hi. lia.
Qed.

(** X22. [computeAbsoluteMagnitudes] needs a solved observation for every
    listed one: on observations of the store it returns exactly when the
    trajectory has at least as many observations as the list, and otherwise
    [traj.observations[i]] raises. *)
Theorem computeAbsoluteMagnitudes_returns (ranges : list (list F)) (w : world F)
    (l : list nat) :
  (∀ m, m ∈ l → is_ok (deref w m) = true) →
  is_ok (computeAbsoluteMagnitudes of_int np_log10 ranges w l) = true
  ↔ length l ≤ length ranges.
Proof.
  intros Hall. unfold computeAbsoluteMagnitudes.
  rewrite computeAbsoluteMagnitudes_from by done. simpl.
  split; [intros [->|?]; simpl; lia | auto].
Qed.

Lemma absolute_magnitudes_frame (ranges : list (list F)) (l : list nat) :
  ∀ (i : nat) (w w' : world F),
    for_each (absolute_magnitudes of_int np_log10 ranges) w (enumerate i l) = Ok w' →
    ∀ m, m ∉ l → deref w' m = deref w m.
Proof.
  induction l as [|m0 l IH]; intros i w w' Hrun m Hm.
  - by injection Hrun as <-.
  - change (enumerate i (m0 :: l)) with ((i, m0) :: enumerate (S i) l) in Hrun.
    rewrite for_each_cons in Hrun.
    destruct (absolute_magnitudes of_int np_log10 ranges w (i, m0)) as [w1|] eqn:Hstep;
      [|done].
    simpl in Hrun. rewrite (IH _ _ _ Hrun m) by set_solver.
    unfold absolute_magnitudes in Hstep.
    destruct (index ranges i); [|done]. simpl in Hstep.
    destruct (deref w m0); [|done]. simpl in Hstep. injection Hstep as <-.
    apply deref_assign_ne. set_solver.
Qed.

(** X23. What [computeAbsoluteMagnitudes] stores, for observations listed
    once each: the absolute magnitudes of the [k]-th observation are
    appended to those it already has (a second call appends them again), as
    many as the shorter of its magnitudes and the modelled ranges, a point
    without magnitude getting [None]; the magnitudes themselves are kept. *)
Theorem computeAbsoluteMagnitudes_appends (ranges : list (list F)) (l : list nat) :
  ∀ (w w' : world F) (k m : nat) (o : MeteorObservation F),
    NoDup l →
    computeAbsoluteMagnitudes of_int np_log10 ranges w l = Ok w' →
    l !! k = Some m → deref w m = Ok o →
    ∃ range o',
      ranges !! k = Some range ∧ deref w' m = Ok o'
      ∧ abs_mag_data o'
        = abs_mag_data o
          ++ map (λ p, abs_mag of_int np_log10 p.1 p.2) (zip range (mag_data o))
      ∧ mag_data o' = mag_data o.
Proof.
  unfold computeAbsoluteMagnitudes.
  assert (∀ (i : nat) (w w' : world F) (k m : nat) (o : MeteorObservation F),
            NoDup l →
            for_each (absolute_magnitudes of_int np_log10 ranges) w (enumerate i l)
            = Ok w' →
            l !! k = Some m → deref w m = Ok o →
            ∃ range o',
              ranges !! (i + k) = Some range ∧ deref w' m = Ok o'
              ∧ abs_mag_data o'
                = abs_mag_data o
                  ++ map (λ p, abs_mag of_int np_log10 p.1 p.2)
                       (zip range (mag_data o))
              ∧ mag_data o' = mag_data o) as Hgen; [|by apply (Hgen 0)].
  induction l as [|m0 l IH]; intros i w w' k m o Hnd Hrun Hk Ho; [done|].
  apply NoDup_cons in Hnd as [Hfresh Hnd].
  change (enumerate i (m0 :: l)) with ((i, m0) :: enumerate (S i) l) in Hrun.
  rewrite for_each_cons in Hrun.
  destruct (absolute_magnitudes of_int np_log10 ranges w (i, m0)) as [w1|] eqn:Hstep;
    [|done].
  simpl in Hrun. unfold absolute_magnitudes, index in Hstep.
  destruct (ranges !! i) as [range|] eqn:Hi; [|done]. simpl in Hstep.
  destruct (deref w m0) as [o0|] eqn:Ho0; [|done]. simpl in Hstep.
  injection Hstep as <-.
  destruct k as [|k]; simpl in Hk.
  - injection Hk as ->. rewrite Ho0 in Ho. injection Ho as ->.
    exists range. eexists. rewrite Nat.add_0_r.
    rewrite (absolute_magnitudes_frame _ _ _ _ _ Hrun m Hfresh).
    rewrite (deref_assign w m o _ Ho0). done.
  - assert (m0 ≠ m) as Hne.
    { intros ->. apply Hfresh. by eapply list_elem_of_lookup_2. }
    destruct (IH (S i) _ w' k m o Hnd Hrun Hk) as (range' & o' & Hr & Hrest).
    { by rewrite deref_assign_ne. }
    exists range', o'. split; [|done]. by rewrite <- Hr, Nat.add_succ_r.
Qed.

End PhotometryProperties.

(** ** Reruns from a pickle *)

Section RerunProperties.
Context {F : Type} `{PyFloat F}.
Variables traj options excluded ignored : Type.
Variable Trajectory : F → string → Z → kwargs F options → result traj.
Variable GuralTrajectory : nat → F → Z → option (option F) → Z → string → result traj.
Variable infillTrajectory : traj → infill F excluded ignored → result traj.
Variable run : traj → result traj.
Variable loadPickle : string → string → result (pickled F excluded ignored).
Variable savePlots : pickled F excluded ignored → result unit.

(** X24. A pickled trajectory saved without a maximum time offset keeps
    none: with the solver ['original'], the [max_toffset] the caller gives
    is removed from the keyword arguments and the solver is built with
    [None], so the rerun is the same whatever value was given. *)
Theorem solveTrajectoryPickle_drops_max_toffset (dir_path file_name : string)
    (only_plot : bool) (kw : kwargs F options) (traj_p : pickled F excluded ignored) :
  loadPickle dir_path file_name = Ok traj_p →
  pt_max_toffset excluded ignored traj_p = None →
  solveTrajectoryPickle traj options excluded ignored Trajectory GuralTrajectory
    infillTrajectory run loadPickle savePlots dir_path file_name only_plot
    "original" kw
  = solveTrajectoryPickle traj options excluded ignored Trajectory GuralTrajectory
      infillTrajectory run loadPickle savePlots dir_path file_name only_plot
      "original" {| kw_max_toffset := None; kw_others := kw_others options kw |}.
Proof.
  intros Hload Hnone. unfold solveTrajectoryPickle. rewrite Hload. simpl.
  unfold rerun_original. rewrite Hnone. simpl.
  by destruct (kw_max_toffset options kw) as [[g|]|].
Qed.

End RerunProperties.

(** ** The bin line: too few tokens *)

(** X25. A bin line with fewer than four tokens between underscores has no
    date, time and millisecond tokens to read: [IndexError], before any of
    them is converted. *)
Theorem bin_line_jd_few_tokens date2JD (line : string) :
  length (Str.split_on "_" line) < 4 → bin_line_jd date2JD line = Raise IndexError.
Proof.
  unfold bin_line_jd. intros Hlen.
  destruct (Str.split_on "_" line) as [|t0 [|t1 [|t2 [|t3 ts]]]]; simpl in *;
    try done; lia.
Qed.

(** ** The statements above, on the samples *)

Lemma loadCameraSites_keys_witness :
  ∃ stations, loadCameraSites np_radians sample_sites = Ok stations
    ∧ dom stations = list_to_set (omap site_line_id (drop 2 sample_sites)).
Proof.
  eexists. split; [vm_compute; reflexivity|].
  apply (loadCameraSites_keys np_radians). vm_compute. reflexivity.
Defined.


Lemma loadCameraTimeOffsets_last_line_witness :
  ∃ offsets, loadCameraTimeOffsets sample_offsets = Ok offsets
    ∧ offsets !! IntId 454 = Some 0.75%float.
Proof.
  eexists. split; [vm_compute; reflexivity|].
  apply (loadCameraTimeOffsets_last_line sample_offsets
           [text_line "000454 0.5"; text_line "HR0001 -1.25"] []
           (text_line "000454 0.75") _ "000454" "0.75" []).
  - vm_compute. reflexivity.
  - reflexivity.
  - reflexivity.
  - reflexivity.
  - constructor.
Defined.

Lemma loadFTPDetectInfo_one_per_separator_witness :
  ∃ w l,
    loadFTPDetectInfo np_radians sample_date2JD
      (replicate 11 (text_line "") ++ two_meteors) catalog None = Ok (w, l)
    ∧ l = seq 0 2 ∧ length (objects w) = 2.
Proof.
  eexists _, _. split; [vm_compute; reflexivity|].
  apply (loadFTPDetectInfo_one_per_separator np_radians sample_date2JD catalog None
           (replicate 11 (text_line "")) two_meteors).
  - reflexivity.
  - vm_compute. reflexivity.
  - vm_compute. reflexivity.
  - simpl. intros Hin.
    repeat (apply elem_of_cons in Hin as [Hin|Hin]; [discriminate Hin|]).
    by apply elem_of_nil in Hin.
Defined.

Lemma loadFTPDetectInfo_unknown_station_witness :
  ∃ w l,
    loadFTPDetectInfo np_radians sample_date2JD
      (replicate 11 (text_line "") ++ two_meteors ++ unknown_station_meteor)
      catalog None = Ok (w, l)
    ∧ l = [0; 1; 1] ∧ l = last_twice (length (objects w)).
Proof.
  eexists _, _. split; [vm_compute; reflexivity|]. split; [reflexivity|].
  apply (loadFTPDetectInfo_unknown_station np_radians sample_date2JD catalog None
           (replicate 11 (text_line "")) (two_meteors ++ unknown_station_meteor)).
  - reflexivity.
  - vm_compute. reflexivity.
  - vm_compute. reflexivity.
  - simpl. set_solver.
Defined.

Lemma loadFTPDetectInfo_trailing_separator_witness :
  ∃ w l,
    loadFTPDetectInfo np_radians sample_date2JD
      (replicate 11 (text_line "") ++ two_meteors ++ [text_line separator])
      catalog None = Ok (w, l)
    ∧ l = [0; 1; 1]
    ∧ l = last_twice (length (objects w)) ∧ length (objects w) = 2.
Proof.
  eexists _, _. split; [vm_compute; reflexivity|]. split; [reflexivity|].
  apply (loadFTPDetectInfo_trailing_separator np_radians sample_date2JD catalog None
           (replicate 11 (text_line "")) two_meteors (text_line separator)).
  - reflexivity.
  - vm_compute. reflexivity.
  - vm_compute. reflexivity.
  - vm_compute. reflexivity.
  - simpl. intros Hin.
    repeat (apply elem_of_cons in Hin as [Hin|Hin]; [discriminate Hin|]).
    by apply elem_of_nil in Hin.
Defined.

Lemma no_record_before_first_separator_witness :
  loadFTPDetectInfo np_radians sample_date2JD
    (replicate 11 (text_line "") ++ map text_line
       ["FF_HR0001_20180614_212523_123_0000000.bin"; "";
        "0112.5 0340.17 0319.55 339.28 +68.35 355.74 +52.34 000755 2.5"])
    catalog None
  = Ok ({| objects := []; console := [] |}, []).
Proof.
  apply (no_record_before_first_separator np_radians sample_date2JD).
  - reflexivity.
  - repeat constructor.
Defined.


Lemma finish_twice_witness :
  finish sample_event_binary64 1 = Ok sample_event_binary64.
Proof. apply (finish_twice sample_event_binary64). reflexivity. Defined.

Lemma prepareObservations_pass_over_witness :
  ∃ w' prepared,
    prepareObservations 2451545%float sample_precession sample_altaz
      sample_event_binary64 [0; 1] = Ok (w', prepared)
    ∧ pass_over [0; 1] sample_event_binary64 w'
    ∧ (∀ jd l, prepared = Some (jd, l) → l = [0; 1]).
Proof.
  eexists _, _. split; [vm_compute; reflexivity|].
  apply (prepareObservations_pass_over 2451545%float sample_precession sample_altaz).
  vm_compute. reflexivity.
Defined.

Lemma loadFTPDetectInfo_returns_finished_witness :
  ∃ w l,
    loadFTPDetectInfo np_radians sample_date2JD
      (replicate 11 (text_line "") ++ two_meteors) catalog None = Ok (w, l)
    ∧ 1 ∈ l
    ∧ ∃ o, deref w 1 = Ok o ∧ finished o = true ∧ same_length o.
Proof.
  eexists _, _. split; [vm_compute; reflexivity|].
  assert (1 ∈ [0; 1]) as Hin by set_solver. split; [exact Hin|].
  apply (loadFTPDetectInfo_returns_finished np_radians sample_date2JD catalog None
           (replicate 11 (text_line "") ++ two_meteors) _ [0; 1] 1).
  - vm_compute. reflexivity.
  - exact Hin.
Defined.

Lemma prepareObservations_returns_witness :
  ∃ w' jd,
    prepareObservations 2451545%float sample_precession sample_altaz
      sample_event_binary64 [0; 1] = Ok (w', Some (jd, [0; 1])).
Proof.
  eapply (prepareObservations_returns 2451545%float sample_precession sample_altaz
            sample_event_binary64 0 [1]).
  - intros m Hm. apply elem_of_cons in Hm as [->|Hm].
    + eexists. split; reflexivity.
    + apply list_elem_of_singleton in Hm as ->. eexists. split; reflexivity.
  - reflexivity.
  - discriminate.
Defined.

Lemma loaded_observations_normalise_witness :
  ∃ w r0,
    loadFTPDetectInfo np_radians sample_date2JD
      (replicate 11 (text_line "") ++ two_meteors) catalog None = Ok (w, [0; 1])
    ∧ deref w 0 = Ok r0 ∧ items (time_data r0) ≠ []
    ∧ ∃ w' jd,
        prepareObservations 2451545%float sample_precession sample_altaz
          w [0; 1] = Ok (w', Some (jd, [0; 1]))
        ∧ ready [0; 1] w'.
Proof.
  eexists _, _. split; [vm_compute; reflexivity|].
  split; [vm_compute; reflexivity|]. split; [discriminate|].
  eapply (loaded_observations_normalise np_radians sample_date2JD catalog None
            2451545%float sample_precession sample_altaz
            (replicate 11 (text_line "") ++ two_meteors)).
  - vm_compute. reflexivity.
  - vm_compute. reflexivity.
  - discriminate.
Defined.


Lemma prepareObservations_first_time_binary64_witness :
  ∃ r ts',
    deref
      (match prepareObservations 2451545%float sample_precession sample_altaz
               sample_event_binary64 [0; 1] with
       | Ok (w', _) => w'
       | Raise _ => sample_event_binary64
       end) 0 = Ok r
    ∧ items (time_data r) = 0%float :: ts'.
Proof.
  eapply (prepareObservations_first_time_binary64 2451545%float sample_precession
            sample_altaz sample_event_binary64 _ 0 [1]).
  - vm_compute. reflexivity.
  - intros Hin. apply list_elem_of_singleton in Hin. discriminate Hin.
  - reflexivity.
  - reflexivity.
  - reflexivity.
Defined.

Lemma milig_list_numbers_witness :
  ∃ stations,
    milig_list float_of_int 0x1.921fb54442d18p+1%float sample_mod
      sample_event_binary64 [0; 1] = Ok stations
    ∧ sd_station_id <$> stations = [1; 2]%Z.
Proof.
  eexists. split; [vm_compute; reflexivity|].
  apply (milig_list_numbers float_of_int 0x1.921fb54442d18p+1%float sample_mod
           sample_event_binary64 [0; 1]).
  - vm_compute. reflexivity.
  - intros m o Hm Ho. apply elem_of_cons in Hm as [->|Hm].
    + injection Ho as <-. by exists "HR0001".
    + apply list_elem_of_singleton in Hm as ->. injection Ho as <-.
      by exists "HR0002".
Defined.

Lemma computeAbsoluteMagnitudes_returns_witness :
  is_ok (computeAbsoluteMagnitudes float_of_int sample_log10
           [[100000; 110000]; [95000; 99000]]%float sample_event_binary64 [0; 1]) = true
  ↔ 2 ≤ 2.
Proof.
  apply (computeAbsoluteMagnitudes_returns float_of_int sample_log10
           [[100000; 110000]; [95000; 99000]]%float sample_event_binary64 [0; 1]).
  intros m Hm. apply elem_of_cons in Hm as [->|Hm]; [reflexivity|].
  apply list_elem_of_singleton in Hm as ->. reflexivity.
Defined.

Lemma computeAbsoluteMagnitudes_appends_witness :
  ∃ w',
    computeAbsoluteMagnitudes float_of_int sample_log10
      [[100000]; [95000; 99000; 99500]]%float sample_unfinished [0] = Ok w'
    ∧ ∃ range o',
        [[100000]; [95000; 99000; 99500]]%float !! 0 = Some range
        ∧ deref w' 0 = Ok o'
        ∧ abs_mag_data o'
          = abs_mag_data sample_building
            ++ map (λ p, abs_mag float_of_int sample_log10 p.1 p.2)
                 (zip range (mag_data sample_building))
        ∧ mag_data o' = mag_data sample_building.
Proof.
  eexists. split; [vm_compute; reflexivity|].
  apply (computeAbsoluteMagnitudes_appends float_of_int sample_log10
           [[100000]; [95000; 99000; 99500]]%float [0] sample_unfinished _ 0 0
           sample_building).
  - apply NoDup_singleton.
  - vm_compute. reflexivity.
  - reflexivity.
  - reflexivity.
Defined.

Lemma solveTrajectoryPickle_drops_max_toffset_witness :
  solveTrajectoryPickle (list (infill float unit unit)) unit unit unit
    (λ _ _ _ _, sample_solver_new) (λ _ _ _ _ _ _, sample_solver_new)
    sample_infill Ok (λ _ _, Ok sample_pickle_no_offset) (λ _, Ok ())
    "/data/meteors" "20180614_212523_trajectory.pickle" false "original"
    {| kw_max_toffset := Some (Some 5%float); kw_others := () |}
  = solveTrajectoryPickle (list (infill float unit unit)) unit unit unit
      (λ _ _ _ _, sample_solver_new) (λ _ _ _ _ _ _, sample_solver_new)
      sample_infill Ok (λ _ _, Ok sample_pickle_no_offset) (λ _, Ok ())
      "/data/meteors" "20180614_212523_trajectory.pickle" false "original"
      {| kw_max_toffset := None; kw_others := () |}.
Proof.
  apply (solveTrajectoryPickle_drops_max_toffset (list (infill float unit unit))
           unit unit unit (λ _ _ _ _, sample_solver_new)
           (λ _ _ _ _ _ _, sample_solver_new) sample_infill Ok
           (λ _ _, Ok sample_pickle_no_offset) (λ _, Ok ())
           "/data/meteors" "20180614_212523_trajectory.pickle" false
           {| kw_max_toffset := Some (Some 5%float); kw_others := () |}
           sample_pickle_no_offset);
    reflexivity.
Defined.

Lemma bin_line_jd_few_tokens_witness :
  bin_line_jd sample_date2JD "FF454_20180614.bin" = Raise IndexError.
Proof. apply bin_line_jd_few_tokens. vm_compute. lia. Defined.

Lemma solveTrajectoryCAMS_unknown_solver_witness :
  ∃ w2,
    solveTrajectoryCAMS 2451545%float sample_precession sample_altaz
      (list (infill float unit unit)) unit unit unit
      (λ _ _ _ _, sample_solver_new) (λ _ _ _ _ _ _, sample_solver_new)
      sample_infill Ok sample_event_binary64 [0; 1] "/data/meteors" "gural0"
      {| kw_max_toffset := None; kw_others := () |}
    = Ok (print w2 (NoSuchSolver "gural0"), None).
Proof.
  eexists.
  eapply (solveTrajectoryCAMS_unknown_solver 2451545%float sample_precession
            sample_altaz (list (infill float unit unit)) unit unit unit
            (λ _ _ _ _, sample_solver_new) (λ _ _ _ _ _ _, sample_solver_new)
            sample_infill Ok sample_event_binary64 _ _ [0; 1]).
  - done.
  - done.
  - vm_compute. reflexivity.
  - vm_compute. reflexivity.
Defined.
